(** * A GTP front end for Gomoku: [gtp_connection.py]

    A shallow embedding of the protocol layer of [gtp_connection.py]: the
    coordinate codec ([point_to_coord], [format_point], [move_to_coord],
    [color_to_int]), the win detector ([check_result] and its twin inside
    [gogui_rules_final_result_cmd]), the command handlers and the
    dispatcher [get_cmd].

    Python integers are [Z], lists are [list], strings are [string] over
    ASCII.  A Python exception is a value of
    [exn], and a computation that may raise has type [result]. *)

From Stdlib Require Import ZArith List String Ascii Bool Lia Arith.
From Stdlib Require Import DecimalString.
Import ListNotations.
Open Scope string_scope.
Open Scope Z_scope.

Set Implicit Arguments.

(** ** Python values the module relies on *)

Module Py.

(** The exceptions the module can raise.  [SystemExit] is the one that is
    not a subclass of [Exception]. *)
Inductive exn : Type :=
| KeyError (key : string)
| ValueError (msg : string)
| IndexError (msg : string)
| TypeError (msg : string)
| AssertionError
| ZeroDivisionError (msg : string)
| SystemExit.

Inductive result (A : Type) : Type :=
| Ok (a : A)
| Raise (e : exn).
Arguments Ok {A} a.
Arguments Raise {A} e.

Definition bind {A B} (m : result A) (k : A -> result B) : result B :=
  match m with
  | Ok a => k a
  | Raise e => Raise e
  end.

Definition is_Exception (e : exn) : bool :=
  match e with
  | SystemExit => false
  | _ => true
  end.

Definition nl : string := String "010"%char EmptyString.
Definition dquote : string := String (ascii_of_nat 34) EmptyString.
Definition squote : string := "'".

Definition ord (c : ascii) : Z := Z.of_nat (nat_of_ascii c).

Definition isdigit (c : ascii) : bool := (48 <=? ord c) && (ord c <=? 57).

(** [str.isspace] on ASCII: tab, LF, VT, FF, CR, the four separators
    0x1c..0x1f and the blank. *)
Definition isspace (c : ascii) : bool :=
  ((9 <=? ord c) && (ord c <=? 13)) || ((28 <=? ord c) && (ord c <=? 32)).

Definition lower_char (c : ascii) : ascii :=
  if (65 <=? ord c) && (ord c <=? 90)
  then ascii_of_nat (nat_of_ascii c + 32)
  else c.

(** [s.lower()] *)
Fixpoint lower (s : string) : string :=
  match s with
  | EmptyString => EmptyString
  | String c r => String (lower_char c) (lower r)
  end.

Fixpoint rev_string (s acc : string) : string :=
  match s with
  | EmptyString => acc
  | String c r => rev_string r (String c acc)
  end.

(** [s.lstrip(chars)], [s.rstrip(chars)], [s.strip(chars)] for a
    character class given as a predicate. *)
Fixpoint lstrip (p : ascii -> bool) (s : string) : string :=
  match s with
  | EmptyString => EmptyString
  | String c r => if p c then lstrip p r else s
  end.

Definition rstrip (p : ascii -> bool) (s : string) : string :=
  rev_string (lstrip p (rev_string s EmptyString)) EmptyString.

Definition strip (p : ascii -> bool) (s : string) : string :=
  rstrip p (lstrip p s).

(** [s.split()]: maximal runs of non-blank characters. *)
Fixpoint split_aux (s : string) (cur : string) : list string :=
  match s with
  | EmptyString =>
      match cur with
      | EmptyString => []
      | _ => [rev_string cur EmptyString]
      end
  | String c r =>
      if isspace c
      then match cur with
           | EmptyString => split_aux r EmptyString
           | _ => rev_string cur EmptyString :: split_aux r EmptyString
           end
      else split_aux r (String c cur)
  end.

Definition split (s : string) : list string := split_aux s EmptyString.

(** [" ".join(l)] *)
Fixpoint join (sep : string) (l : list string) : string :=
  match l with
  | [] => EmptyString
  | [x] => x
  | x :: r => x ++ sep ++ join sep r
  end.

(** [str(n)] for an integer. *)
Definition str_of_Z (z : Z) : string :=
  match z with
  | Z0 => "0"
  | Zpos p => NilEmpty.string_of_uint (Pos.to_uint p)
  | Zneg p => "-" ++ NilEmpty.string_of_uint (Pos.to_uint p)
  end.

Definition hex_digit (n : nat) : ascii :=
  if Nat.ltb n 10 then ascii_of_nat (48 + n) else ascii_of_nat (87 + n).

Definition escape_char (q : ascii) (c : ascii) : string :=
  let n := nat_of_ascii c in
  if Ascii.eqb c "\"%char then "\\"
  else if Ascii.eqb c q then String "\"%char (String q EmptyString)
  else if Nat.eqb n 9 then "\t"
  else if Nat.eqb n 10 then "\n"
  else if Nat.eqb n 13 then "\r"
  else if Nat.ltb n 32 || Nat.eqb n 127
       then String "\"%char (String "x"%char
              (String (hex_digit (Nat.div n 16))
                 (String (hex_digit (Nat.modulo n 16)) EmptyString)))
  else String c EmptyString.

Fixpoint escape (q : ascii) (s : string) : string :=
  match s with
  | EmptyString => EmptyString
  | String c r => escape_char q c ++ escape q r
  end.

Fixpoint contains_char (c : ascii) (s : string) : bool :=
  match s with
  | EmptyString => false
  | String d r => Ascii.eqb c d || contains_char c r
  end.

(** [repr(s)] of an ASCII string: single quotes unless the string holds a
    single quote and no double quote. *)
Definition repr (s : string) : string :=
  let sq := "'"%char in
  let dq := ascii_of_nat 34 in
  let q := if contains_char sq s && negb (contains_char dq s) then dq else sq in
  String q (escape q s ++ String q EmptyString).

(** [str(e)] *)
Definition str_of_exn (e : exn) : string :=
  match e with
  | KeyError k => repr k
  | ValueError m => m
  | IndexError m => m
  | TypeError m => m
  | ZeroDivisionError m => m
  | AssertionError => EmptyString
  | SystemExit => EmptyString
  end.

(** The digits of an integer literal: decimal digits, with single
    underscores allowed between two digits. *)
Fixpoint int_digits (s : string) (acc : Z) (after_digit : bool) : option Z :=
  match s with
  | EmptyString => if after_digit then Some acc else None
  | String c r =>
      if isdigit c then int_digits r (10 * acc + (ord c - 48)) true
      else if Ascii.eqb c "_"%char && after_digit then int_digits r acc false
      else None
  end.

(** [int(s)]: blanks stripped on both sides, an optional sign, digits.
    The literal is quoted in full in the error text and no bound is put
    on the number of digits; the interpreter shortens the quoted literal
    past 200 characters and, in recent versions, refuses literals of more
    than 4300 digits, so the model follows it on shorter literals. *)
Definition int (s : string) : result Z :=
  let t := strip isspace s in
  let parsed :=
    match t with
    | String "-"%char r => option_map Z.opp (int_digits r 0 false)
    | String "+"%char r => int_digits r 0 false
    | _ => int_digits t 0 false
    end in
  match parsed with
  | Some z => Ok z
  | None => Raise (ValueError ("invalid literal for int() with base 10: " ++ repr s))
  end.

(** [l[i]] of a list, with Python's negative positions. *)
Definition getitem {A} (l : list A) (i : Z) : result A :=
  let n := Z.of_nat (List.length l) in
  let j := if i <? 0 then i + n else i in
  if (0 <=? j) && (j <? n)
  then match nth_error l (Z.to_nat j) with
       | Some a => Ok a
       | None => Raise (IndexError "list index out of range")
       end
  else Raise (IndexError "list index out of range").

Fixpoint set_nth {A} (n : nat) (a : A) (l : list A) : list A :=
  match l, n with
  | [], _ => []
  | _ :: r, O => a :: r
  | x :: r, S m => x :: set_nth m a r
  end.

(** [l[i] = a] of a list. *)
Definition setitem {A} (l : list A) (i : Z) (a : A) : result (list A) :=
  let n := Z.of_nat (List.length l) in
  let j := if i <? 0 then i + n else i in
  if (0 <=? j) && (j <? n)
  then Ok (set_nth (Z.to_nat j) a l)
  else Raise (IndexError "list assignment index out of range").

(** [s[0]] and [s[1:]] of a string. *)
Definition head (s : string) : result ascii :=
  match s with
  | EmptyString => Raise (IndexError "string index out of range")
  | String c _ => Ok c
  end.

Definition tail (s : string) : string :=
  match s with
  | EmptyString => EmptyString
  | String _ r => r
  end.

End Py.

Import Py.

Notation "x <- m ;; k" := (Py.bind m (fun x => k))
  (at level 61, m at next level, right associativity).

(** ** Constants of [board_util]

    The module imports its colour codes and limits from [board_util]. *)

(** Modelled from the spec: [board_util] is not part of the sources.  Each
    cell holds one of EMPTY, BLACK, WHITE, BORDER; the code 0 of EMPTY is
    the one in the comment [[3,3,3,3,0,0,0,0....]] on [color_list]. *)
Definition EMPTY : Z := 0.

(** Modelled from the spec: BLACK, the colour [check_result] looks for
    with [i == 1] under CHECK BLACK and records as [win_color = 1]. *)
Definition BLACK : Z := 1.

(** Modelled from the spec: WHITE, the colour [check_result] looks for
    with [i == 2] under CHECK WHITE and records as [win_color = 2]. *)
Definition WHITE : Z := 2.

(** Modelled from the spec: BORDER, which [play_cmd] tests as
    [color == 3]; the 3 in the comment on [color_list]. *)
Definition BORDER : Z := 3.

(** Modelled from the spec: the largest board size, [boardsize <= 25];
    [format_point] asserts [MAXSIZE <= 25]. *)
Definition MAXSIZE : Z := 25.

(** A move is a (row, col) pair or the PASS sentinel. *)
Definition move : Type := option (Z * Z).

(** Modelled from the spec: PASS, the distinguished value outside the
    coordinate mapping. *)
Definition PASS : move := None.

(** ** Coordinate codec *)

(** [point_to_coord(point, boardsize)] for a board point (an integer,
    never PASS): [divmod(point, boardsize + 1)]. *)
Definition point_to_coord (point : Z) (boardsize : Z) : result move :=
  let NS := boardsize + 1 in
  if NS =? 0 then Raise (ZeroDivisionError "integer division or modulo by zero")
  else Ok (Some (point / NS, point mod NS)).

Definition column_letters : list ascii :=
  list_ascii_of_string "ABCDEFGHJKLMNOPQRSTUVWXYZ".

(** [format_point(move)] *)
Definition format_point (m : move) : result string :=
  match m with
  | None => Ok "PASS"
  | Some (row, col) =>
      if negb ((0 <=? row) && (row <? MAXSIZE)) || negb ((0 <=? col) && (col <? MAXSIZE))
      then Raise (ValueError "")
      else
        c <- getitem column_letters (col - 1) ;;
        Ok (String c (str_of_Z row))
  end.

(** The body of the [try] block of [move_to_coord]. *)
Definition parse_point (s : string) : result (Z * Z) :=
  col_c <- head s ;;
  if negb ((ord "a" <=? ord col_c) && (ord col_c <=? ord "z")) || Ascii.eqb col_c "i"
  then Raise (ValueError "")
  else
    let col := ord col_c - ord "a" in
    let col := if ord col_c <? ord "i" then col + 1 else col in
    row <- int (tail s) ;;
    if row <? 1 then Raise (ValueError "") else Ok (row, col).

(** [move_to_coord(point_str, board_size)] *)
Definition move_to_coord (point_str : string) (board_size : Z) : result move :=
  if negb ((2 <=? board_size) && (board_size <=? MAXSIZE))
  then Raise (ValueError "board_size out of range")
  else
    let s := lower point_str in
    if String.eqb s "pass" then Ok PASS
    else
      match parse_point s with
      | Raise (IndexError _) | Raise (ValueError _) =>
          Raise (ValueError ("invalid point: '" ++ s ++ "'"))
      | Raise e => Raise e
      | Ok (row, col) =>
          if negb ((col <=? board_size) && (row <=? board_size))
          then Raise (ValueError ("point off board: '" ++ s ++ "'"))
          else Ok (Some (row, col))
      end.

(** [color_to_int(c)]: a lookup in the literal dictionary
    [{"b": BLACK, "w": WHITE, "e": EMPTY, "BORDER": BORDER}]. *)
Definition color_to_int (c : string) : result Z :=
  if String.eqb c "b" then Ok BLACK
  else if String.eqb c "w" then Ok WHITE
  else if String.eqb c "e" then Ok EMPTY
  else if String.eqb c "BORDER" then Ok BORDER
  else Raise (KeyError c).

(** Encoding a coordinate and decoding the string again. *)
Definition decode_encoded (boardsize row col : Z) : result move :=
  s <- format_point (Some (row, col)) ;;
  move_to_coord s boardsize.

(** ** The board

    [gtp_connection.py] reads and writes three attributes of the board
    object: [size], the cell array [board] and [current_player]. *)

Module Board.

Record t : Type := mk {
  size : Z;
  board : list Z;
  current_player : Z
}.

Definition set_board (b : t) (cells : list Z) : t :=
  mk (size b) cells (current_player b).

Definition set_current_player (b : t) (c : Z) : t :=
  mk (size b) (board b) c.

(** Modelled from the spec: the board class is not part of the sources.
    [colorAt(index)] over the extended index space; the cell array is
    what [play_cmd] indexes as [self.board.board[move]]. *)
Definition get_color (b : t) (i : Z) : Z :=
  nth (Z.to_nat i) (board b) BORDER.

(** Modelled from the spec: [emptyPoints()], the sequence of indices
    whose cell is EMPTY, in increasing order. *)
Fixpoint empty_from (cells : list Z) (i : Z) : list Z :=
  match cells with
  | [] => []
  | c :: r => if c =? EMPTY then i :: empty_from r (i + 1) else empty_from r (i + 1)
  end.

(** Modelled from the spec: [get_empty_points()], the indices of the EMPTY
    cells of the whole array. *)
Definition get_empty_points (b : t) : list Z := empty_from (board b) 0.

(** Modelled from the spec: [coord_to_point] is imported from
    [board_util]; it is the inverse of [point_to_coord], the linear
    index of (row, col) in rows of [size + 1] cells. *)
Definition coord_to_point (row col boardsize : Z) : Z :=
  (boardsize + 1) * row + col.

(** Modelled from the spec: [row_start(row)], the index of the first
    playable cell of a row. *)
Definition row_start (b : t) (row : Z) : Z := coord_to_point row 1 (size b).

(** Modelled from the spec: [GoBoardUtil.opponent], the other player
    colour. *)
Definition opponent (color : Z) : Z := WHITE + BLACK - color.

(** Modelled from the spec: the cells of an empty board, a
    [(size+1) x (size+1)] extended array whose row 0 and column 0 are
    BORDER. *)
Definition empty_cells (sz : Z) : list Z :=
  let NS := sz + 1 in
  map (fun k => let i := Z.of_nat k in
                if (i / NS =? 0) || (i mod NS =? 0) then BORDER else EMPTY)
      (seq 0 (Z.to_nat (NS * NS))).

(** Modelled from the spec: [reset(size)] replaces the board by the empty
    board of that size. *)
Definition reset (b : t) (sz : Z) : t := mk sz (empty_cells sz) BLACK.

(** Modelled from the spec: the run-membership mask of a colour,
    position [i] true iff [colorAt(i) == color], over the whole cell
    array. *)
Definition color_mask (b : t) (color : Z) : list bool :=
  map (fun c => c =? color) (board b).

End Board.

(** ** External collaborators

    What the connection calls but does not define: the two scan
    primitives of the board, the 2-d rendering, the legal move generator,
    the random shuffle of numpy, [float], [traceback.format_exc] and the
    identity of the engine. *)
Record Collaborators : Type := {
  connected_component : Board.t -> Z -> list bool;
  connected_component_dia : Board.t -> Z -> list bool;
  get_twoD_board : Board.t -> string;
  generate_legal_moves : Board.t -> Z -> list Z;
  shuffle : list Z -> list Z;
  float_ok : string -> bool;
  format_exc : exn -> string;
  engine_name : string;
  engine_version : string
}.

(** Modelled from the spec: the run-membership mask seen from a point.
    At a point that holds a stone it is the colour mask of that stone's
    colour; a point without a stone belongs to no run, and its mask is
    false everywhere. *)
Definition stone_mask (b : Board.t) (p : Z) : list bool :=
  let c := Board.get_color b p in
  if (c =? BLACK) || (c =? WHITE)
  then Board.color_mask b c
  else map (fun _ => false) (Board.board b).

(** Modelled from the spec: the instance in which both scan primitives
    are [stone_mask] (the diagonal checks run over the same colour mask).
    The remaining fields are inert. *)
Definition spec_collaborators : Collaborators := {|
  connected_component := stone_mask;
  connected_component_dia := stone_mask;
  get_twoD_board := fun _ => EmptyString;
  generate_legal_moves := fun b _ => Board.get_empty_points b;
  shuffle := fun l => l;
  float_ok := fun _ => true;
  format_exc := fun _ => EmptyString;
  engine_name := "Go0";
  engine_version := "1.0"
|}.

(** ** Win detector *)

(** [range(start, stop, step)] as the list of its values. *)
Definition py_range (start stop step : Z) : result (list Z) :=
  if step =? 0 then Raise (ValueError "range() arg 3 must not be zero")
  else
    let n := if 0 <? step
             then (stop - start + step - 1) / step
             else (start - stop - step - 1) / (- step) in
    Ok (map (fun k => start + Z.of_nat k * step) (seq 0 (Z.to_nat n))).

Definition len {A} (l : list A) : Z := Z.of_nat (List.length l).

(** The scan for the first stone of a colour:
    [for i in color_list: if i == color: break; first_stone_point += 1]. *)
Fixpoint first_stone (color : Z) (color_list : list Z) : Z :=
  match color_list with
  | [] => 0
  | c :: r => if c =? color then 0 else 1 + first_stone color r
  end.

(** [color_list]: the colours of the indices [range((size+1)*(size+1)-1)]. *)
Definition color_list (b : Board.t) : list Z :=
  let sz := Board.size b in
  map (fun k => Board.get_color b (Z.of_nat k))
      (seq 0 (Z.to_nat ((sz + 1) * (sz + 1) - 1))).

(** The row check: the loop over [final_list] with its running count. *)
Fixpoint row_scan (final_list : list bool) (match_row : Z) : bool :=
  match final_list with
  | [] => false
  | true :: r => row_scan r (match_row + 1)
  | false :: r => if 5 <=? match_row then true else row_scan r 0
  end.

(** The inner loop of the column and diagonal checks:
    [for j in range(...): if l[j] == True: count += 1]. *)
Fixpoint count_true (l : list bool) (js : list Z) (count : Z) : result Z :=
  match js with
  | [] => Ok count
  | j :: r =>
      b <- getitem l j ;;
      count_true l r (if b then count + 1 else count)
  end.

(** The outer loop of the column and diagonal checks, at position [i] with
    [rest] the cells of the mask from [i] on.  The flag the source tests
    next to [l[i] == True] is still 0 whenever the loop runs, since
    setting it is followed by [break]. *)
Fixpoint stride_scan (l : list bool) (stop stride : Z)
    (rest : list bool) (i : Z) (count : Z) : result bool :=
  match rest with
  | [] => Ok false
  | true :: r =>
      js <- py_range i stop stride ;;
      c <- count_true l js count ;;
      stride_scan l stop stride r (i + 1) c
  | false :: r =>
      if 5 <=? count then Ok true
      else stride_scan l stop stride r (i + 1) 0
  end.

Definition col_check (sz : Z) (final_list : list bool) : result bool :=
  stride_scan final_list (len final_list) (sz + 1) final_list 0 0.

Definition dia_f_check (sz : Z) (final_list_dia : list bool) : result bool :=
  stride_scan final_list_dia (len final_list_dia) (sz + 2) final_list_dia 0 0.

Definition dia_b_check (sz : Z) (final_list final_list_dia : list bool) : result bool :=
  stride_scan final_list_dia (len final_list) sz final_list_dia 0 0.

(** The four checks on the two masks of one colour, and the disjunction
    the source tests afterwards. *)
Definition four_checks (sz : Z) (final_list final_list_dia : list bool) : result bool :=
  let row := row_scan final_list 0 in
  col <- col_check sz final_list ;;
  dia_f <- dia_f_check sz final_list_dia ;;
  dia_b <- dia_b_check sz final_list final_list_dia ;;
  Ok (dia_b || dia_f || row || col).

Section Detector.

Variable C : Collaborators.

(** One colour's pass of [check_result].  The source holds the pass
    twice, under CHECK BLACK and CHECK WHITE; the two texts differ only
    in the colour literal and the names of the counters. *)
Definition color_pass (b : Board.t) (color : Z) : result bool :=
  let first_stone_point := first_stone color (color_list b) in
  let final_list := connected_component C b first_stone_point in
  let final_list_dia := connected_component_dia C b first_stone_point in
  four_checks (Board.size b) final_list final_list_dia.

End Detector.

(** ** The connection *)

Record GtpConnection : Type := {
  board : Board.t;
  gameOver : bool;
  win_color : Z;
  debug_mode : bool;
  komi : string
}.

(** The state [__init__] leaves behind. *)
Definition init (b : Board.t) (debug : bool) : GtpConnection :=
  {| board := b; gameOver := false; win_color := -1; debug_mode := debug;
     komi := EmptyString |}.

Definition set_result (st : GtpConnection) (over : bool) (w : Z) : GtpConnection :=
  {| board := board st; gameOver := over; win_color := w;
     debug_mode := debug_mode st; komi := komi st |}.

Definition set_conn_board (st : GtpConnection) (b : Board.t) : GtpConnection :=
  {| board := b; gameOver := gameOver st; win_color := win_color st;
     debug_mode := debug_mode st; komi := komi st |}.

Definition set_komi (st : GtpConnection) (k : string) : GtpConnection :=
  {| board := board st; gameOver := gameOver st; win_color := win_color st;
     debug_mode := debug_mode st; komi := k |}.

(** What a command writes. *)
Inductive event : Type :=
| Stdout (s : string)
| Stderr (s : string).

(** A method of the connection: it may change the connection, write, and
    return or raise. *)
Definition M (A : Type) : Type :=
  GtpConnection -> GtpConnection * list event * result A.

Definition ret {A} (a : A) : M A := fun st => (st, [], Ok a).

Definition bindM {A B} (m : M A) (k : A -> M B) : M B :=
  fun st =>
    match m st with
    | (st1, w1, Ok a) =>
        match k a st1 with
        | (st2, w2, r) => (st2, (w1 ++ w2)%list, r)
        end
    | (st1, w1, Raise e) => (st1, w1, Raise e)
    end.

Notation "x <~ m ;; k" := (bindM m (fun x => k))
  (at level 61, m at next level, right associativity).
Notation "m ;;; k" := (bindM m (fun _ => k))
  (at level 61, right associativity).

Definition lift {A} (r : result A) : M A := fun st => (st, [], r).
Definition get : M GtpConnection := fun st => (st, [], Ok st).
Definition put (st' : GtpConnection) : M unit := fun _ => (st', [], Ok tt).
Definition write (e : event) : M unit := fun st => (st, [e], Ok tt).

(** [try: body except Exception as e: handler(e)] *)
Definition try_except {A} (body : M A) (handler : exn -> M A) : M A :=
  fun st =>
    match body st with
    | (st1, w1, Raise e) =>
        if is_Exception e
        then match handler e st1 with
             | (st2, w2, r) => (st2, (w1 ++ w2)%list, r)
             end
        else (st1, w1, Raise e)
    | r => r
    end.

(** [error(error_msg)] and [respond(response)] *)
Definition error_frame (error_msg : string) : string := "? " ++ error_msg ++ nl ++ nl.
Definition respond_frame (response : string) : string := "= " ++ response ++ nl ++ nl.

Definition error (error_msg : string) : M unit := write (Stdout (error_frame error_msg)).
Definition respond (response : string) : M unit := write (Stdout (respond_frame response)).

(** [debug_msg(msg)] *)
Definition debug_msg (msg : string) : M unit :=
  st <~ get ;;
  if debug_mode st then write (Stderr msg) else ret tt.

(** [reset(size)] *)
Definition reset (sz : Z) : M unit :=
  st <~ get ;;
  put (set_result (set_conn_board st (Board.reset (board st) sz)) false (-1)).

(** [sorted] on strings. *)
Fixpoint insert_sorted (x : string) (l : list string) : list string :=
  match l with
  | [] => [x]
  | y :: r => if String.leb x y then x :: l else y :: insert_sorted x r
  end.

Definition sorted (l : list string) : list string :=
  fold_left (fun acc x => insert_sorted x acc) (rev l) [].

(** [argmap]: required number of arguments and usage message. *)
Definition argmap (cmd : string) : option (Z * string) :=
  if String.eqb cmd "boardsize" then Some (1, "Usage: boardsize INT")
  else if String.eqb cmd "komi" then Some (1, "Usage: komi FLOAT")
  else if String.eqb cmd "known_command" then Some (1, "Usage: known_command CMD_NAME")
  else if String.eqb cmd "genmove" then Some (1, "Usage: genmove {w,b}")
  else if String.eqb cmd "play" then Some (2, "Usage: play {b,w} MOVE")
  else if String.eqb cmd "legal_moves" then Some (1, "Usage: legal_moves {w,b}")
  else None.

(** The keys of [commands], in the order of the dictionary literal. *)
Definition command_names : list string :=
  [ "protocol_version"; "quit"; "name"; "boardsize"; "showboard";
    "clear_board"; "komi"; "version"; "known_command"; "genmove";
    "list_commands"; "play"; "legal_moves"; "gogui-rules_game_id";
    "gogui-rules_board_size"; "gogui-rules_legal_moves";
    "gogui-rules_side_to_move"; "gogui-rules_board";
    "gogui-rules_final_result"; "gogui-analyze_commands" ].

Definition is_command (name : string) : bool :=
  existsb (String.eqb name) command_names.

(** [has_arg_error(cmd, argnum)] *)
Definition has_arg_error (cmd : string) (argnum : Z) : M bool :=
  match argmap cmd with
  | Some (n, usage) =>
      if negb (n =? argnum) then error usage ;;; ret true else ret false
  | None => ret false
  end.

Fixpoint mapM {A B} (f : A -> result B) (l : list A) : result (list B) :=
  match l with
  | [] => Ok []
  | a :: r => b <- f a ;; bs <- mapM f r ;; Ok (b :: bs)
  end.

Section Handlers.

Variable C : Collaborators.

(** [check_result(args)]: BLACK's pass, then WHITE's, then the empty
    points. *)
Definition check_result : M unit :=
  st <~ get ;;
  black <~ lift (color_pass C (board st) 1) ;;
  if black : bool then put (set_result st true 1)
  else
    white <~ lift (color_pass C (board st) 2) ;;
    if white : bool then put (set_result st true 2)
    else
      let check_empty := Board.get_empty_points (board st) in
      if len check_empty =? 0 then put (set_result st true 3)
      else ret tt.

(** [gogui_rules_final_result_cmd(args)]: the same passes, each verdict
    answered before it is recorded. *)
Definition gogui_rules_final_result_cmd (args : list string) : M unit :=
  st <~ get ;;
  black <~ lift (color_pass C (board st) 1) ;;
  if black : bool then respond "black" ;;; put (set_result st true 1)
  else
    white <~ lift (color_pass C (board st) 2) ;;
    if white : bool then respond "white" ;;; put (set_result st true 2)
    else
      let check_empty := Board.get_empty_points (board st) in
      if len check_empty =? 0 then respond "draw" ;;; put (set_result st true 3)
      else respond "unknown".

Definition protocol_version_cmd (args : list string) : M unit := respond "2".

Definition quit_cmd (args : list string) : M unit :=
  respond EmptyString ;;; lift (Raise SystemExit).

Definition name_cmd (args : list string) : M unit := respond (engine_name C).

Definition version_cmd (args : list string) : M unit := respond (engine_version C).

Definition clear_board_cmd (args : list string) : M unit :=
  st <~ get ;;
  reset (Board.size (board st)) ;;; respond EmptyString.

Definition boardsize_cmd (args : list string) : M unit :=
  a <~ lift (getitem args 0) ;;
  sz <~ lift (int a) ;;
  reset sz ;;; respond EmptyString.

Definition gogui_analyze_cmd (args : list string) : M unit :=
  respond ("pstring/Legal Moves For ToPlay/gogui-rules_legal_moves" ++ nl ++
           "pstring/Side to Play/gogui-rules_side_to_move" ++ nl ++
           "pstring/Final Result/gogui-rules_final_result" ++ nl ++
           "pstring/Board Size/gogui-rules_board_size" ++ nl ++
           "pstring/Rules GameID/gogui-rules_game_id" ++ nl ++
           "pstring/Show Board/gogui-rules_board" ++ nl).

Definition gogui_rules_game_id_cmd (args : list string) : M unit := respond "Gomoku".

Definition gogui_rules_board_size_cmd (args : list string) : M unit :=
  st <~ get ;;
  respond (str_of_Z (Board.size (board st))).

(** The protocol strings of a list of points:
    [format_point(point_to_coord(move, size))], lowered or not. *)
Definition gtp_move (sz : Z) (lowered : bool) (mv : Z) : result string :=
  coords <- point_to_coord mv sz ;;
  s <- format_point coords ;;
  Ok (if lowered then lower s else s).

Definition gogui_rules_legal_moves_cmd (args : list string) : M unit :=
  check_result ;;;
  st <~ get ;;
  if gameOver st then respond EmptyString
  else
    let moves := Board.get_empty_points (board st) in
    gtp_moves <~ lift (mapM (gtp_move (Board.size (board st)) true) moves) ;;
    respond (join " " (sorted gtp_moves)).

Definition gogui_rules_side_to_move_cmd (args : list string) : M unit :=
  st <~ get ;;
  respond (if Board.current_player (board st) =? BLACK then "black" else "white").

Definition cell_char (point : Z) : result string :=
  if point =? BLACK then Ok "X"
  else if point =? WHITE then Ok "O"
  else if point =? EMPTY then Ok "."
  else Raise AssertionError.

Fixpoint concatM (l : list (result string)) : result string :=
  match l with
  | [] => Ok EmptyString
  | r :: rest => s <- r ;; t <- concatM rest ;; Ok (s ++ t)
  end.

Definition board_row (b : Board.t) (row : Z) : result string :=
  let start := Board.row_start b (row + 1) in
  cols <- py_range 0 (Board.size b) 1 ;;
  s <- concatM (map (fun i => point <- getitem (Board.board b) (start + i) ;;
                                cell_char point) cols) ;;
  Ok (s ++ nl).

Definition gogui_rules_board_cmd (args : list string) : M unit :=
  st <~ get ;;
  let b := board st in
  rows <~ lift (py_range (Board.size b - 1) (-1) (-1)) ;;
  str <~ lift (concatM (map (board_row b) rows)) ;;
  respond str.

(** The body of the [try] block of [play_cmd]. *)
Definition play_body (args : list string) : M unit :=
  st <~ get ;;
  let b := board st in
  a0 <~ lift (getitem args 0) ;;
  let board_color := lower a0 in
  board_move <~ lift (getitem args 1) ;;
  color <~ lift (color_to_int board_color) ;;
  if negb (String.eqb board_color "b") && negb (String.eqb board_color "w")
  then respond ("illegal move: " ++ dquote ++ board_color ++ dquote ++ " wrong color")
  else
    c0 <~ lift (head (lower board_move)) ;;
    off <~ lift (if Board.size b <? ord c0 - ord "a" then Ok true
                 else (row <- int (tail board_move) ;; Ok (Board.size b <? row))) ;;
    if off : bool
    then respond (lower ("illegal move: " ++ dquote ++ board_move ++ dquote ++ " wrong coordinate"))
    else if color =? 3
    then respond ("illegal move: " ++ dquote ++ lower board_move ++ dquote ++ " wrong coordinate")
    else
      coord <~ lift (move_to_coord board_move (Board.size b)) ;;
      match coord with
      | None => lift (Raise (TypeError "'NoneType' object is not subscriptable"))
      | Some (row, col) =>
          let mv := Board.coord_to_point row col (Board.size b) in
          cell <~ lift (getitem (Board.board b) mv) ;;
          if negb (cell =? EMPTY)
          then respond ("illegal move: " ++ dquote ++ lower board_move ++ dquote ++ " occupied")
          else
            cells <~ lift (setitem (Board.board b) mv color) ;;
            put (set_conn_board st
                   (Board.set_current_player (Board.set_board b cells)
                      (Board.opponent color))) ;;;
            respond EmptyString
      end.

(** [play_cmd(args)] *)
Definition play_cmd (args : list string) : M unit :=
  try_except (play_body args)
    (fun e => respond ("Error: " ++ str_of_exn e)).

(** [genmove_cmd(args)] *)
Definition genmove_cmd (args : list string) : M unit :=
  a0 <~ lift (getitem args 0) ;;
  let board_color := lower a0 in
  color <~ lift (color_to_int board_color) ;;
  check_result ;;;
  st <~ get ;;
  let moves := shuffle C (Board.get_empty_points (board st)) in
  if negb (gameOver st) then
    m0 <~ lift (getitem moves 0) ;;
    move_coord <~ lift (point_to_coord m0 (Board.size (board st))) ;;
    move_as_string <~ lift (format_point move_coord) ;;
    respond (lower move_as_string)
  else if negb (win_color st =? -1) && negb (win_color st =? color)
          && negb (win_color st =? 3)
  then respond "resign"
  else if win_color st =? 3 then respond "pass"
  else respond EmptyString.

Definition showboard_cmd (args : list string) : M unit :=
  st <~ get ;;
  respond (nl ++ get_twoD_board C (board st)).

(** [komi_cmd(args)]: the komi is kept as the literal [float] accepted. *)
Definition komi_cmd (args : list string) : M unit :=
  a <~ lift (getitem args 0) ;;
  if float_ok C a
  then (st <~ get ;; put (set_komi st a)) ;;; respond EmptyString
  else lift (Raise (ValueError ("could not convert string to float: " ++ repr a))).

Definition known_command_cmd (args : list string) : M unit :=
  a <~ lift (getitem args 0) ;;
  if is_command a then respond "true" else respond "false".

Definition list_commands_cmd (args : list string) : M unit :=
  respond (join " " command_names).

(** [legal_moves_cmd(args)] *)
Definition legal_moves_cmd (args : list string) : M unit :=
  a0 <~ lift (getitem args 0) ;;
  color <~ lift (color_to_int (lower a0)) ;;
  st <~ get ;;
  let moves := generate_legal_moves C (board st) color in
  gtp_moves <~ lift (mapM (gtp_move (Board.size (board st)) false) moves) ;;
  respond (join " " (sorted gtp_moves)).

(** [commands]: the handler registered under a name. *)
Definition commands (name : string) : option (list string -> M unit) :=
  if String.eqb name "protocol_version" then Some protocol_version_cmd
  else if String.eqb name "quit" then Some quit_cmd
  else if String.eqb name "name" then Some name_cmd
  else if String.eqb name "boardsize" then Some boardsize_cmd
  else if String.eqb name "showboard" then Some showboard_cmd
  else if String.eqb name "clear_board" then Some clear_board_cmd
  else if String.eqb name "komi" then Some komi_cmd
  else if String.eqb name "version" then Some version_cmd
  else if String.eqb name "known_command" then Some known_command_cmd
  else if String.eqb name "genmove" then Some genmove_cmd
  else if String.eqb name "list_commands" then Some list_commands_cmd
  else if String.eqb name "play" then Some play_cmd
  else if String.eqb name "legal_moves" then Some legal_moves_cmd
  else if String.eqb name "gogui-rules_game_id" then Some gogui_rules_game_id_cmd
  else if String.eqb name "gogui-rules_board_size" then Some gogui_rules_board_size_cmd
  else if String.eqb name "gogui-rules_legal_moves" then Some gogui_rules_legal_moves_cmd
  else if String.eqb name "gogui-rules_side_to_move" then Some gogui_rules_side_to_move_cmd
  else if String.eqb name "gogui-rules_board" then Some gogui_rules_board_cmd
  else if String.eqb name "gogui-rules_final_result" then Some gogui_rules_final_result_cmd
  else if String.eqb name "gogui-analyze_commands" then Some gogui_analyze_cmd
  else None.

(** The [try] ... [except Exception as e] around the handler call in
    [get_cmd]: two debug messages, then [raise e]. *)
Definition guarded (h : M unit) : M unit :=
  try_except h
    (fun e =>
       debug_msg ("Error executing command " ++ str_of_exn e ++ nl) ;;;
       debug_msg ("Stack Trace:" ++ nl ++ format_exc C e ++ nl) ;;;
       lift (Raise e)).

(** [re.sub("^\d+", "", command).lstrip()] *)
Definition strip_line_number (command : string) : string :=
  lstrip isspace (lstrip isdigit command).

Definition blank_rt (c : ascii) : bool :=
  Ascii.eqb c " " || Ascii.eqb c "013" || Ascii.eqb c "009".

(** The tokens [get_cmd] dispatches on: none when the line is blank, is
    a comment or splits into nothing (the three early returns), else
    [command.split()] after the leading line number is removed. *)
Definition tokens (command : string) : list string :=
  if len (list_ascii_of_string (strip blank_rt command)) =? 0 then []
  else
    match command with
    | EmptyString => []
    | String c0 _ =>
        if Ascii.eqb c0 "#" then []
        else split (if isdigit c0 then strip_line_number command else command)
    end.

(** [get_cmd(command)] *)
Definition get_cmd (command : string) : M unit :=
  match tokens command with
  | [] => ret tt
  | command_name :: args =>
      bad <~ has_arg_error command_name (len args) ;;
      if bad : bool then ret tt
      else
        match commands command_name with
        | Some handler => guarded (handler args)
        | None =>
            debug_msg ("Unknown command: " ++ command_name ++ nl) ;;;
            error "Unknown command"
        end
  end.

(** [start_connection()] on the lines the input still holds: a line is
    read and handed to [get_cmd] until the input ends or a command
    raises. *)
Fixpoint start_connection (lines : list string) : M unit :=
  match lines with
  | [] => ret tt
  | line :: rest => get_cmd line ;;; start_connection rest
  end.

End Handlers.

(** ** Reference notions and sample sessions *)

(** The reading of the column and diagonal claims on a mask: some start
    position from which five positions in a row along the stride are all
    true. *)
Definition five_along (mask : list bool) (stride : nat) : bool :=
  existsb (fun i => forallb (fun k => nth (i + k * stride) mask false) (seq 0 5))
          (seq 0 (List.length mask)).

(** A colour has a stone somewhere on the board. *)
Definition has_stone (b : Board.t) (color : Z) : bool :=
  existsb (fun c => c =? color) (Board.board b).

(** What the session invariant records: an ended game names its winner,
    a running game names none. *)
Definition result_recorded (st : GtpConnection) : Prop :=
  (gameOver st = true -> win_color st = 1 \/ win_color st = 2 \/ win_color st = 3) /\
  (gameOver st = false -> win_color st = -1).


(** The number of arguments is the one [argmap] asks for, if it asks. *)
Definition arity_ok (name : string) (argnum : Z) : bool :=
  match argmap name with
  | Some (n, _) => n =? argnum
  | None => true
  end.

(** What [get_cmd] writes to the debug stream before it raises [e] again. *)
Definition failure_log (C : Collaborators) (debug : bool) (e : exn) : list event :=
  if debug
  then [Stderr ("Error executing command " ++ str_of_exn e ++ nl);
        Stderr ("Stack Trace:" ++ nl ++ format_exc C e ++ nl)]
  else [].


(** A session: the lines are fed to a fresh connection, each with its
    line feed, under the collaborators of the spec. *)
Definition fresh : GtpConnection := init (Board.mk 0 [] BLACK) false.

Definition feed (lines : list string) (st : GtpConnection)
  : GtpConnection * list event * result unit :=
  start_connection spec_collaborators (map (fun l => l ++ nl) lines) st.

Definition state_after (lines : list string) : GtpConnection :=
  fst (fst (feed lines fresh)).

Definition script_empty9 : list string := ["boardsize 9"].

Definition script_gapped_column : list string :=
  ["boardsize 9"; "play b A1"; "play b A3"; "play b A5"; "play b A7"; "play b A9"].

Definition script_gapped_diagonal : list string :=
  ["boardsize 9"; "play b A1"; "play b C3"; "play b E5"; "play b G7"; "play b J9"].

Definition script_gapped_antidiagonal : list string :=
  ["boardsize 9"; "play b J1"; "play b G3"; "play b E5"; "play b C7"; "play b A9"].

Definition script_block : list string :=
  ["boardsize 9"; "play b A1"; "play b B1"; "play b C1";
   "play b A2"; "play b B2"; "play b C2"].

Definition script_white_column : list string :=
  ["boardsize 5"; "play w E1"; "play w E2"; "play w E3"; "play w E4"; "play w E5"].

Definition script_both_rows : list string :=
  ["boardsize 5"; "play b A2"; "play b B2"; "play b C2"; "play b D2"; "play b E2";
   "play w A1"; "play w B1"; "play w C1"; "play w D1"; "play w E1"].

Definition script_white_wins : list string :=
  ["boardsize 5"; "play w A1"; "play w B1"; "play w C1"; "play w D1"; "play w E1";
   "play b A3"; "gogui-rules_final_result"].


Definition script_full2 : list string :=
  ["boardsize 2"; "play b A1"; "play w B1"; "play w A2"; "play b B2"].

Definition script_one_each : list string :=
  ["boardsize 5"; "play b A1"; "play w B1"].

(** The decoded value is the given pair. *)
Definition decodes_to (r : result move) (row col : Z) : bool :=
  match r with
  | Ok (Some (r0, c0)) => (r0 =? row) && (c0 =? col)
  | _ => false
  end.

(** The integers [lo], [lo + 1], ... ([n] of them). *)
Definition Zrange (lo : Z) (n : nat) : list Z :=
  map (fun k => lo + Z.of_nat k) (seq 0 n).

(** The board is one the scans can run on: a positive size, and for the
    point a colour's pass starts from, a diagonal mask at least as long as
    the plain one (the last diagonal check indexes the former up to the
    length of the latter). *)
Definition scannable (C : Collaborators) (b : Board.t) : Prop :=
  1 <= Board.size b /\
  forall color,
    let p := first_stone color (color_list b) in
    len (connected_component C b p) <= len (connected_component_dia C b p).

Definition has_empty (b : Board.t) : bool :=
  existsb (fun c => c =? EMPTY) (Board.board b).

(** The answer of [genmove] once the game is over. *)
Definition genmove_answer (winner color : Z) : string :=
  if negb (winner =? color) && negb (winner =? 3) then "resign"
  else if winner =? 3 then "pass"
  else EmptyString.

Definition script_black_recorded : list string :=
  (script_both_rows ++ ["gogui-rules_final_result"])%list.


(** Every run of the method relates the state before to the state after. *)
Definition steps {A} (R : GtpConnection -> GtpConnection -> Prop) (m : M A) : Prop :=
  forall st st' w r, m st = (st', w, r) -> R st st'.


(** The board, and with it the player to move, is the same. *)
Definition same_board (st st' : GtpConnection) : Prop := board st' = board st.

(** A colour has five stones in a line on the board: five cells in a row
    along a row (stride 1), a column (stride size + 1) or one of the two
    diagonals (strides size and size + 2) of the cell array.  The border
    column keeps a line from running over the edge of the board. *)
Definition has_five (b : Board.t) (color : Z) : bool :=
  let n := Z.to_nat (Board.size b) in
  existsb (five_along (Board.color_mask b color)) [1; n; n + 1; n + 2]%nat.

(** BLACK on the top row and WHITE on the bottom row of the 5 x 5 board. *)
Definition script_both_top : list string :=
  ["boardsize 5"; "play b A5"; "play b B5"; "play b C5"; "play b D5"; "play b E5";
   "play w A1"; "play w B1"; "play w C1"; "play w D1"; "play w E1"].

(** A full 3 x 3 board. *)
Definition script_full3 : list string :=
  ["boardsize 3"; "play b A1"; "play b A2"; "play b A3"; "play b B1"; "play b B2";
   "play w C1"; "play w C2"; "play w C3"; "play w B3"].

(** WHITE's win is recorded, then BLACK completes a row. *)
Definition script_white_recorded_black_row : list string :=
  (script_white_wins
     ++ ["play b A2"; "play b B2"; "play b C2"; "play b D2"; "play b E2"])%list.

(** BLACK's win is recorded on the 9 x 9 board for the stones A9 ... E9,
    WHITE having A1 ... E1; then BLACK fills the rest of the top row. *)
Definition script_black_recorded_top_row : list string :=
  ["boardsize 9"; "play b A9"; "play b B9"; "play b C9"; "play b D9"; "play b E9";
   "play w A1"; "play w B1"; "play w C1"; "play w D1"; "play w E1";
   "gogui-rules_final_result";
   "play b F9"; "play b G9"; "play b H9"; "play b J9"].

(** * Properties *)

(** ** Coordinate codec *)

Lemma decodes_to_spec (r : result move) (row col : Z) :
  decodes_to r row col = true -> r = Ok (Some (row, col)).
Proof.
  destruct r as [[[r0 c0]|]|e]; simpl; try discriminate.
  intros H. apply andb_prop in H. destruct H as [Hr Hc].
  apply Z.eqb_eq in Hr. apply Z.eqb_eq in Hc. now subst.
Qed.

Lemma Zrange_In (lo : Z) (n : nat) (z : Z) :
  lo <= z < lo + Z.of_nat n -> In z (Zrange lo n).
Proof.
  intros H. unfold Zrange. apply in_map_iff.
  exists (Z.to_nat (z - lo)). split; [lia|].
  apply in_seq. lia.
Qed.

Lemma roundtrip_table :
  forallb (fun bs =>
    forallb (fun r =>
      forallb (fun c =>
        implb ((r <=? bs) && (c <=? bs)) (decodes_to (decode_encoded bs r c) r c))
        (Zrange 1 24)) (Zrange 1 24)) (Zrange 2 24) = true.
Proof. vm_compute. reflexivity. Qed.

(** Below the last row and column the codec is lossless: for every board
    size from 2 to 25 and every on-board (row, col) with both coordinates
    under [MAXSIZE], decoding the encoded point gives the pair back. *)
Lemma roundtrip_below_MAXSIZE (boardsize row col : Z) :
  2 <= boardsize <= 25 ->
  1 <= row <= boardsize -> 1 <= col <= boardsize ->
  row < MAXSIZE -> col < MAXSIZE ->
  decode_encoded boardsize row col = Ok (Some (row, col)).
Proof.
  unfold MAXSIZE. intros Hb Hr Hc Hr' Hc'.
  apply decodes_to_spec.
  pose proof roundtrip_table as T.
  rewrite forallb_forall in T.
  specialize (T boardsize (@Zrange_In 2 24 boardsize ltac:(simpl; lia))). cbv beta in T.
  rewrite forallb_forall in T.
  specialize (T row (@Zrange_In 1 24 row ltac:(simpl; lia))). cbv beta in T.
  rewrite forallb_forall in T.
  specialize (T col (@Zrange_In 1 24 col ltac:(simpl; lia))). cbv beta in T.
  replace (row <=? boardsize) with true in T by (symmetry; apply Z.leb_le; lia).
  replace (col <=? boardsize) with true in T by (symmetry; apply Z.leb_le; lia).
  exact T.
Qed.

(** [format_point] refuses every pair whose row or column is [MAXSIZE],
    whatever the other coordinate. *)
Lemma format_point_refuses_MAXSIZE (row col : Z) :
  row = MAXSIZE \/ col = MAXSIZE ->
  format_point (Some (row, col)) = Raise (ValueError "").
Proof.
  unfold format_point, MAXSIZE. intros [-> | ->].
  - replace (25 <? 25) with false by reflexivity.
    now rewrite andb_false_r.
  - replace (25 <? 25) with false by reflexivity.
    rewrite andb_false_r. simpl. now rewrite orb_true_r.
Qed.

(** C2, at the largest board.  On a 25 x 25 board the point (25, 25) is on
    the board and "Z25" decodes to it, but [format_point] raises
    [ValueError] on it (its bound is [row < MAXSIZE], [col < MAXSIZE]), so
    encoding and decoding does not give the pair back. *)
Theorem roundtrip_fails_on_last_line :
  format_point (Some (25, 25)) = Raise (ValueError "") /\
  decode_encoded 25 25 25 = Raise (ValueError "") /\
  decode_encoded 25 25 1 = Raise (ValueError "") /\
  decode_encoded 25 1 25 = Raise (ValueError "") /\
  move_to_coord "Z25" 25 = Ok (Some (25, 25)).
Proof. repeat split; vm_compute; reflexivity. Qed.

(** ** Running methods of the connection *)

Lemma bind_get {B} (k : GtpConnection -> M B) st : bindM get k st = k st st.
Proof. unfold bindM, get. now destruct (k st st) as [[? ?] ?]. Qed.

Lemma bind_lift_Ok {A B} (a : A) (k : A -> M B) st : bindM (lift (Ok a)) k st = k a st.
Proof. unfold bindM, lift. now destruct (k a st) as [[? ?] ?]. Qed.

Lemma bind_lift_Raise {A B} (e : exn) (k : A -> M B) st :
  bindM (lift (Raise e)) k st = (st, [], Raise e).
Proof. reflexivity. Qed.

Lemma bind_ret {A B} (a : A) (k : A -> M B) st : bindM (ret a) k st = k a st.
Proof. unfold bindM, ret. now destruct (k a st) as [[? ?] ?]. Qed.

Lemma bind_put {B} (s : GtpConnection) (k : unit -> M B) st : bindM (put s) k st = k tt s.
Proof. unfold bindM, put. now destruct (k tt s) as [[? ?] ?]. Qed.

Lemma respond_run (s : string) st : respond s st = (st, [Stdout (respond_frame s)], Ok tt).
Proof. reflexivity. Qed.

Lemma lift_run {A} (r : result A) st : lift r st = (st, [], r).
Proof. reflexivity. Qed.

Lemma put_run (s st : GtpConnection) : put s st = (s, [], Ok tt).
Proof. reflexivity. Qed.

Lemma ret_run {A} (a : A) st : ret a st = (st, [], Ok a).
Proof. reflexivity. Qed.

Ltac msimp :=
  repeat first
    [ rewrite bind_get | rewrite bind_lift_Ok | rewrite bind_lift_Raise
    | rewrite bind_ret | rewrite bind_put | rewrite respond_run
    | rewrite lift_run | rewrite put_run | rewrite ret_run ].

Ltac mcase t H := destruct t eqn:H; msimp.

(** ** What the helpers can raise *)

Lemma getitem_raises {A} (l : list A) (i : Z) (e : exn) :
  getitem l i = Raise e -> is_Exception e = true.
Proof.
  unfold getitem.
  destruct (_ && _); [destruct (nth_error _ _)|]; intros H; inversion H; reflexivity.
Qed.

Lemma setitem_raises {A} (l : list A) (i : Z) (a : A) (e : exn) :
  setitem l i a = Raise e -> is_Exception e = true.
Proof.
  unfold setitem. destruct (_ && _); intros H; inversion H; reflexivity.
Qed.

Lemma int_raises (s : string) (e : exn) : int s = Raise e -> is_Exception e = true.
Proof.
  unfold int.
  destruct (match strip isspace s with EmptyString => _ | String _ _ => _ end);
    intros H; inversion H; reflexivity.
Qed.

Lemma head_raises (s : string) (e : exn) : head s = Raise e -> is_Exception e = true.
Proof. destruct s; intros H; inversion H; reflexivity. Qed.

Lemma color_to_int_raises (c : string) (e : exn) :
  color_to_int c = Raise e -> is_Exception e = true.
Proof.
  unfold color_to_int.
  repeat match goal with |- context [if ?b then _ else _] => destruct b end;
    intros H; inversion H; reflexivity.
Qed.

Lemma move_to_coord_raises (s : string) (n : Z) (e : exn) :
  move_to_coord s n = Raise e -> is_Exception e = true.
Proof.
  unfold move_to_coord.
  destruct (negb _); [intros H; inversion H; reflexivity|].
  destruct (String.eqb _ _); [discriminate|].
  destruct (parse_point (lower s)) as [[row col]|e0] eqn:P.
  - destruct (negb _); intros H; inversion H; reflexivity.
  - unfold parse_point in P.
    destruct (head (lower s)) eqn:Hh; simpl in P.
    + destruct (_ || _); [inversion P; subst; intros H; inversion H; reflexivity|].
      destruct (int (tail (lower s))) eqn:Hi; simpl in P.
      * destruct (_ <? _); inversion P; subst. intros H; inversion H; reflexivity.
      * inversion P; subst. apply int_raises in Hi.
        destruct e0; intros H; inversion H; try reflexivity; discriminate.
    + inversion P; subst. apply head_raises in Hh.
      destruct e0; intros H; inversion H; try reflexivity; discriminate.
Qed.

(** ** The play command *)

Lemma set_conn_board_same (st : GtpConnection) : set_conn_board st (board st) = st.
Proof. now destruct st. Qed.

(** The three ways the [try] block of [play_cmd] ends: it raises an
    [Exception] before anything was written or changed; it answers once and
    changes nothing; or it answers with the empty response after placing the
    stone and handing the turn over. *)
Lemma play_body_outcome (args : list string) (st : GtpConnection) :
  (exists e, play_body args st = (st, [], Raise e) /\ is_Exception e = true) \/
  (exists msg, play_body args st = (st, [Stdout (respond_frame msg)], Ok tt)) \/
  (exists b', play_body args st =
                (set_conn_board st b', [Stdout (respond_frame EmptyString)], Ok tt)).
Proof.
  unfold play_body. msimp.
  mcase (getitem args 0) E0; [|left; eauto using @getitem_raises].
  mcase (getitem args 1) E1; [|left; eauto using @getitem_raises].
  mcase (color_to_int (lower a)) E2; [|left; eauto using color_to_int_raises].
  destruct (_ && _); msimp; [right; left; eauto|].
  mcase (head (lower a0)) E3; [|left; eauto using head_raises].
  match goal with |- context [lift ?r] => destruct r as [off|e] eqn:E4 end; msimp.
  2:{ left. exists e. split; [reflexivity|].
      destruct (_ <? _); [discriminate|].
      destruct (int (tail a0)) eqn:Hi; simpl in E4; inversion E4; subst.
      eauto using int_raises. }
  destruct off; msimp; [right; left; eauto|].
  destruct (a1 =? 3); msimp; [right; left; eauto|].
  mcase (move_to_coord a0 (Board.size (board st))) E5;
    [|left; eauto using move_to_coord_raises].
  destruct a3 as [[row col]|]; msimp; [|left; eauto].
  match goal with |- context [lift ?r] => destruct r as [cell|e] eqn:E6 end; msimp;
    [|left; eauto using @getitem_raises].
  destruct (negb (cell =? EMPTY)); msimp; [right; left; eauto|].
  match goal with |- context [lift ?r] => destruct r as [cells|e] eqn:E7 end; msimp;
    [|left; eauto using @setitem_raises].
  right; right. eauto.
Qed.

(** [play_cmd] always answers exactly once and never raises; unless the
    answer is the empty success response the connection, and with it the
    board, is what it was. *)
Lemma play_cmd_outcome (args : list string) (st : GtpConnection) :
  (exists msg, play_cmd args st = (st, [Stdout (respond_frame msg)], Ok tt)) \/
  (exists b', play_cmd args st =
                (set_conn_board st b', [Stdout (respond_frame EmptyString)], Ok tt)).
Proof.
  unfold play_cmd, try_except.
  destruct (play_body_outcome args st) as [[e [H He]]|[[msg H]|[b' H]]]; rewrite H.
  - rewrite He. left. exists ("Error: " ++ str_of_exn e). reflexivity.
  - left. eauto.
  - right. eauto.
Qed.

Lemma lower_char_not_B (c : ascii) : lower_char c <> "B"%char.
Proof.
  destruct c as [[] [] [] [] [] [] [] []]; vm_compute; discriminate.
Qed.

(** A colour token outside the dictionary of [color_to_int] never reaches
    the wrong-colour test: the [KeyError] of the lookup is answered by the
    handler of the [try] block, as the quoted token behind "Error: ". *)
Lemma play_unknown_token (tok mv : string) (st : GtpConnection) :
  lower tok <> "b" -> lower tok <> "w" -> lower tok <> "e" ->
  play_cmd [tok; mv] st =
    (st, [Stdout (respond_frame ("Error: " ++ repr (lower tok)))], Ok tt).
Proof.
  intros Hb Hw He.
  assert (K : color_to_int (lower tok) = Raise (KeyError (lower tok))).
  { unfold color_to_int.
    apply String.eqb_neq in Hb, Hw, He. rewrite Hb, Hw, He.
    destruct (String.eqb (lower tok) "BORDER") eqn:B; [|reflexivity].
    apply String.eqb_eq in B. destruct tok as [|c r]; simpl in B; [discriminate|].
    inversion B as [[B1 B2]]. now apply lower_char_not_B in B1. }
  unfold play_cmd, try_except, play_body. msimp.
  replace (getitem [tok; mv] 0) with (Ok tok) by reflexivity. msimp.
  replace (getitem [tok; mv] 1) with (Ok mv) by reflexivity. msimp.
  rewrite K. msimp. reflexivity.
Qed.

(** C3, at the token "x".  On the empty 9 x 9 board [play x D4] is answered
    ['= Error: 'x''], which names no check, and [play x] followed by an
    off-board or occupied point is answered the same way; only the token
    "e" gets the wrong-colour message.  The board is not touched. *)
Theorem play_unknown_colour_is_not_named :
  let st := state_after script_empty9 in
  get_cmd spec_collaborators ("play x D4" ++ nl) st
    = (st, [Stdout (respond_frame "Error: 'x'")], Ok tt) /\
  get_cmd spec_collaborators ("play x Z99" ++ nl) st
    = (st, [Stdout (respond_frame "Error: 'x'")], Ok tt) /\
  get_cmd spec_collaborators ("play e D4" ++ nl) st
    = (st, [Stdout (respond_frame ("illegal move: " ++ dquote ++ "e" ++ dquote ++ " wrong color"))],
       Ok tt) /\
  get_cmd spec_collaborators ("play b K4" ++ nl) st
    = (st, [Stdout (respond_frame ("illegal move: " ++ dquote ++ "k4" ++ dquote ++ " wrong coordinate"))],
       Ok tt).
Proof. repeat split; vm_compute; reflexivity. Qed.

(** ** Playing the same point twice *)

(** C6 as stated fails: the answer to the second [play b D4] is not an
    error response.  It is written by [respond], so it starts with "= ",
    and no message framed by [error] as "? ..." equals it. *)
Lemma second_play_is_not_an_error_response :
  ~ (exists msg,
       snd (fst (feed ["play b D4"] (state_after ["boardsize 9"; "play b D4"])))
       = [Stdout (error_frame msg)]).
Proof.
  intros [msg H]. vm_compute in H. discriminate H.
Qed.

(** C6, amended.  On the empty 9 x 9 board [play b D4] is answered with
    the empty success response, the cell D4 (index 44) becomes BLACK and
    WHITE is to play; a second [play b D4] is answered with the success
    frame carrying ['illegal move: "d4" occupied'] and the connection, so
    the board and the player to move, stays as it was. *)
Theorem play_D4_twice (C : Collaborators) :
  let st0 := state_after script_empty9 in
  Board.get_color (board st0) 44 = EMPTY /\
  Board.current_player (board st0) = BLACK /\
  exists st1,
    get_cmd C ("play b D4" ++ nl) st0 = (st1, [Stdout ("= " ++ nl ++ nl)], Ok tt) /\
    Board.coord_to_point 4 4 9 = 44 /\
    Board.get_color (board st1) 44 = BLACK /\
    Board.current_player (board st1) = WHITE /\
    get_cmd C ("play b D4" ++ nl) st1
      = (st1,
         [Stdout ("= illegal move: " ++ dquote ++ "d4" ++ dquote ++ " occupied" ++ nl ++ nl)],
         Ok tt).
Proof.
  cbv zeta. split; [reflexivity|]. split; [reflexivity|].
  eexists. split; [vm_compute; reflexivity|].
  repeat split; vm_compute; reflexivity.
Qed.

(** ** The scans *)

Lemma getitem_in_range {A} (l : list A) (j : Z) (d : A) :
  0 <= j < len l -> getitem l j = Ok (nth (Z.to_nat j) l d).
Proof.
  unfold getitem, len. intros H.
  replace (j <? 0) with false by (symmetry; apply Z.ltb_ge; lia).
  replace (0 <=? j) with true by (symmetry; apply Z.leb_le; lia).
  replace (j <? Z.of_nat (List.length l)) with true by (symmetry; apply Z.ltb_lt; lia).
  simpl. destruct (nth_error l (Z.to_nat j)) eqn:E.
  - now rewrite (nth_error_nth _ _ d E).
  - apply nth_error_None in E. lia.
Qed.

(** The inner loop counts every true position the stride visits, with no
    stop at the first false one. *)
Lemma count_true_counts (l : list bool) (js : list Z) (count : Z) :
  (forall j, In j js -> 0 <= j < len l) ->
  count_true l js count =
    Ok (count + len (filter (fun j => nth (Z.to_nat j) l false) js)).
Proof.
  revert count. induction js as [|j r IH]; intros count H; simpl.
  - f_equal. unfold len. cbn [List.length]. lia.
  - rewrite (getitem_in_range l false (H j (or_introl eq_refl))). simpl.
    rewrite IH by (intros; apply H; now right).
    destruct (nth (Z.to_nat j) l false); f_equal; unfold len; cbn [List.length]; lia.
Qed.

Lemma py_range_bounds (start stop step : Z) (js : list Z) :
  0 < step -> py_range start stop step = Ok js ->
  forall j, In j js -> start <= j < stop.
Proof.
  unfold py_range. intros Hs.
  replace (step =? 0) with false by (symmetry; apply Z.eqb_neq; lia).
  replace (0 <? step) with true by (symmetry; apply Z.ltb_lt; lia).
  intros H j Hj. inversion H; subst; clear H.
  apply in_map_iff in Hj. destruct Hj as [k [<- Hk]].
  apply in_seq in Hk. 
  assert (Z.of_nat k < (stop - start + step - 1) / step) by lia.
  assert (Z.of_nat k + 1 <= (stop - start + step - 1) / step) by lia.
  assert (step * (Z.of_nat k + 1) <= step * ((stop - start + step - 1) / step)) by nia.
  pose proof (Z.mul_div_le (stop - start + step - 1) step Hs).
  nia.
Qed.

Lemma py_range_positive (start stop step : Z) :
  0 < step -> exists js, py_range start stop step = Ok js.
Proof.
  unfold py_range. intros Hs.
  replace (step =? 0) with false by (symmetry; apply Z.eqb_neq; lia).
  eauto.
Qed.

(** With a positive stride and a stop inside the mask the column and
    diagonal scans return: no index leaves the mask. *)
Lemma stride_scan_total (l : list bool) (stop stride : Z) (rest : list bool) (i count : Z) :
  0 < stride -> stop <= len l -> 0 <= i ->
  exists flag, stride_scan l stop stride rest i count = Ok flag.
Proof.
  intros Hs Hstop. revert i count.
  induction rest as [|[|] r IH]; intros i count Hi; simpl.
  - eauto.
  - destruct (py_range_positive i stop Hs) as [js Hjs]. rewrite Hjs. simpl.
    rewrite count_true_counts.
    + simpl. apply IH. lia.
    + intros j Hj. pose proof (py_range_bounds _ _ Hs Hjs j Hj). lia.
  - destruct (5 <=? count); eauto. apply IH. lia.
Qed.

Lemma four_checks_total (sz : Z) (final_list final_list_dia : list bool) :
  1 <= sz -> len final_list <= len final_list_dia ->
  exists flag, four_checks sz final_list final_list_dia = Ok flag.
Proof.
  intros Hsz Hlen. unfold four_checks, col_check, dia_f_check, dia_b_check.
  destruct (@stride_scan_total final_list (len final_list) (sz + 1) final_list 0 0)
    as [c Hc]; try lia.
  destruct (@stride_scan_total final_list_dia (len final_list_dia) (sz + 2) final_list_dia 0 0)
    as [f Hf]; try lia.
  destruct (@stride_scan_total final_list_dia (len final_list) sz final_list_dia 0 0)
    as [d Hd]; try lia.
  rewrite Hc, Hf, Hd. simpl. eauto.
Qed.

Lemma color_pass_total (C : Collaborators) (b : Board.t) (color : Z) :
  scannable C b -> exists flag, color_pass C b color = Ok flag.
Proof.
  intros [Hsz Hfit]. unfold color_pass. apply four_checks_total; [assumption|].
  apply Hfit.
Qed.

Lemma row_scan_all_false (l : list bool) :
  (forall x, In x l -> x = false) -> row_scan l 0 = false.
Proof.
  induction l as [|x r IH]; intros H; simpl; [reflexivity|].
  rewrite (H x (or_introl eq_refl)). simpl. apply IH. intros; apply H; now right.
Qed.

Lemma stride_scan_all_false (l : list bool) (stop stride : Z) (rest : list bool) (i : Z) :
  (forall x, In x rest -> x = false) -> stride_scan l stop stride rest i 0 = Ok false.
Proof.
  revert i. induction rest as [|x r IH]; intros i H; simpl; [reflexivity|].
  rewrite (H x (or_introl eq_refl)). simpl. apply IH. intros; apply H; now right.
Qed.

(** On masks that are false everywhere none of the four checks signals and
    none raises, whatever the size. *)
Lemma four_checks_all_false (sz : Z) (final_list final_list_dia : list bool) :
  (forall x, In x final_list -> x = false) ->
  (forall x, In x final_list_dia -> x = false) ->
  four_checks sz final_list final_list_dia = Ok false.
Proof.
  intros H1 H2. unfold four_checks, col_check, dia_f_check, dia_b_check.
  rewrite row_scan_all_false by assumption.
  now rewrite !stride_scan_all_false by assumption.
Qed.

Lemma first_stone_absent (color : Z) (l : list Z) :
  ~ In color l -> first_stone color l = len l.
Proof.
  induction l as [|c r IH]; intros H; cbn [first_stone]; [reflexivity|].
  destruct (c =? color) eqn:E.
  - apply Z.eqb_eq in E. subst. exfalso. apply H. now left.
  - rewrite IH by (intros X; apply H; now right).
    unfold len. cbn [List.length]. lia.
Qed.

Lemma len_color_list (b : Board.t) :
  0 <= (Board.size b + 1) * (Board.size b + 1) - 1 ->
  len (color_list b) = (Board.size b + 1) * (Board.size b + 1) - 1.
Proof.
  intros H. unfold len, color_list. rewrite length_map, length_seq.
  now apply Z2Nat.id.
Qed.

(** There is no skip.  When [color_list] holds no stone of the colour, the
    pass runs its four checks on the masks the board gives for the index
    [(size+1)*(size+1)-1], the value the scan for the first stone ends
    with; by [point_to_coord] that index is the cell (size, size). *)
Lemma color_pass_without_stone (C : Collaborators) (b : Board.t) (color : Z) :
  0 <= Board.size b ->
  ~ In color (color_list b) ->
  let last := (Board.size b + 1) * (Board.size b + 1) - 1 in
  point_to_coord last (Board.size b) = Ok (Some (Board.size b, Board.size b)) /\
  color_pass C b color =
    four_checks (Board.size b) (connected_component C b last)
                (connected_component_dia C b last).
Proof.
  intros Hsz Habs last. split.
  - unfold point_to_coord, last.
    replace (Board.size b + 1 =? 0) with false by (symmetry; apply Z.eqb_neq; lia).
    f_equal. f_equal. f_equal.
    + symmetry. apply Z.div_unique with (r := Board.size b); nia.
    + symmetry. apply Z.mod_unique with (q := Board.size b); nia.
  - unfold color_pass. rewrite first_stone_absent by assumption.
    rewrite len_color_list by nia. reflexivity.
Qed.

(** ** Column and diagonal checks *)

(** C1, on four boards.  With five BLACK stones on every other row of
    column A (A1 A3 A5 A7 A9) no five positions in a row along any of the
    four strides are BLACK, yet the column check signals: the count runs
    past false positions.  The same holds for the diagonal A1 C3 E5 G7 J9
    and the forward diagonal check, and for J1 G3 E5 C7 A9 and the backward
    one.  With the six stones A1 B1 C1 A2 B2 C2 the column check signals as
    well: the count is carried from one start cell to the next.  The final
    result on the first and the last board is "black". *)
Theorem gapped_stones_are_signalled :
  let col := Board.color_mask (board (state_after script_gapped_column)) BLACK in
  let dia := Board.color_mask (board (state_after script_gapped_diagonal)) BLACK in
  let anti := Board.color_mask (board (state_after script_gapped_antidiagonal)) BLACK in
  let block := Board.color_mask (board (state_after script_block)) BLACK in
  (forallb (fun s => negb (five_along col s)) [1; 9; 10; 11]%nat = true /\
   col_check 9 col = Ok true) /\
  (forallb (fun s => negb (five_along dia s)) [1; 9; 10; 11]%nat = true /\
   dia_f_check 9 dia = Ok true) /\
  (forallb (fun s => negb (five_along anti s)) [1; 9; 10; 11]%nat = true /\
   dia_b_check 9 anti anti = Ok true) /\
  (forallb (fun s => negb (five_along block s)) [1; 9; 10; 11]%nat = true /\
   col_check 9 block = Ok true) /\
  feed ["gogui-rules_final_result"] (state_after script_gapped_column)
    = (set_result (state_after script_gapped_column) true 1,
       [Stdout (respond_frame "black")], Ok tt) /\
  feed ["gogui-rules_final_result"] (state_after script_block)
    = (set_result (state_after script_block) true 1,
       [Stdout (respond_frame "black")], Ok tt).
Proof. repeat split; vm_compute; reflexivity. Qed.

(** ** A colour without stones *)

(** C10, on the 5 x 5 board whose only stones are WHITE's E1 ... E5.
    BLACK has no stone, the scan for its first stone ends on index 35, the
    cell E5, BLACK's pass runs on the mask of that point and its column
    check counts WHITE's five stones: BLACK is recorded and answered as
    the winner. *)
Theorem colour_without_stones_is_reported :
  let st := state_after script_white_column in
  has_stone (board st) BLACK = false /\
  first_stone BLACK (color_list (board st)) = 35 /\
  Board.get_color (board st) 35 = WHITE /\
  color_pass spec_collaborators (board st) BLACK = Ok true /\
  feed ["gogui-rules_final_result"] st
    = (set_result st true 1, [Stdout (respond_frame "black")], Ok tt).
Proof. repeat split; vm_compute; reflexivity. Qed.

(** ** The order of the two passes *)

Lemma check_result_black (C : Collaborators) (st : GtpConnection) :
  color_pass C (board st) 1 = Ok true ->
  check_result C st = (set_result st true 1, [], Ok tt).
Proof. intros H. unfold check_result. msimp. rewrite H. msimp. reflexivity. Qed.

Lemma final_result_black (C : Collaborators) (args : list string) (st : GtpConnection) :
  color_pass C (board st) 1 = Ok true ->
  gogui_rules_final_result_cmd C args st
    = (set_result st true 1, [Stdout (respond_frame "black")], Ok tt).
Proof.
  intros H. unfold gogui_rules_final_result_cmd. msimp. rewrite H. msimp.
  reflexivity.
Qed.

(** The order of the passes, in terms of what they signal.  Whenever
    BLACK's pass signals, the detector records BLACK ([gameOver] true,
    [win_color] 1) and the final-result command answers "black".  WHITE's
    pass is not run: the outcome is the same under any collaborators [C']
    that agree with [C] on the two masks of BLACK's first stone, whatever
    they return for WHITE. *)
Lemma black_is_reported_first (C C' : Collaborators) (st : GtpConnection)
    (args : list string) :
  let p := first_stone BLACK (color_list (board st)) in
  color_pass C (board st) BLACK = Ok true ->
  connected_component C' (board st) p = connected_component C (board st) p ->
  connected_component_dia C' (board st) p = connected_component_dia C (board st) p ->
  check_result C st = (set_result st true BLACK, [], Ok tt) /\
  gogui_rules_final_result_cmd C args st
    = (set_result st true BLACK, [Stdout (respond_frame "black")], Ok tt) /\
  check_result C' st = check_result C st /\
  gogui_rules_final_result_cmd C' args st = gogui_rules_final_result_cmd C args st.
Proof.
  intros p H Hcc Hdia.
  assert (H' : color_pass C' (board st) BLACK = Ok true).
  { unfold color_pass in *. fold p in H |- *. now rewrite Hcc, Hdia. }
  rewrite (check_result_black C st H), (check_result_black C' st H').
  rewrite (final_result_black C args st H), (final_result_black C' args st H').
  repeat split.
Qed.

(** On the 5 x 5 board with BLACK on row 2 and WHITE on row 1 both passes
    signal, and BLACK is the one recorded. *)
Lemma black_is_reported_first_witness :
  let st := state_after script_both_rows in
  color_pass spec_collaborators (board st) WHITE = Ok true /\
  check_result spec_collaborators st = (set_result st true BLACK, [], Ok tt).
Proof.
  cbv zeta. split; [vm_compute; reflexivity|].
  apply (@black_is_reported_first spec_collaborators spec_collaborators
           (state_after script_both_rows) []);
    [vm_compute; reflexivity | reflexivity | reflexivity].
Defined.

(** C4, on the 5 x 5 board with BLACK on A5 ... E5 and WHITE on A1 ... E1.
    Both colours have five in a row, yet the detector reports WHITE:
    BLACK's five ends on the last cell of the mask, where no false position
    follows, and every check tests its count at a false position only.  So
    BLACK's pass does not signal, WHITE's pass is run, WHITE is recorded
    and answered. *)
Theorem top_row_five_is_missed :
  let st := state_after script_both_top in
  has_five (board st) BLACK = true /\
  has_five (board st) WHITE = true /\
  forallb (fun col => Board.get_color (board st) (Board.coord_to_point 5 col 5) =? BLACK)
          [1; 2; 3; 4; 5] = true /\
  forallb (fun col => Board.get_color (board st) (Board.coord_to_point 1 col 5) =? WHITE)
          [1; 2; 3; 4; 5] = true /\
  color_pass spec_collaborators (board st) BLACK = Ok false /\
  check_result spec_collaborators st = (set_result st true WHITE, [], Ok tt) /\
  feed ["gogui-rules_final_result"] st
    = (set_result st true WHITE, [Stdout (respond_frame "white")], Ok tt).
Proof. cbv zeta. repeat apply conj; vm_compute; reflexivity. Qed.

(** ** Draw and undecided *)

Lemma empty_from_nil (cells : list Z) (i : Z) :
  (len (Board.empty_from cells i) =? 0) = negb (existsb (fun c => c =? EMPTY) cells).
Proof.
  revert i. induction cells as [|c r IH]; intros i; cbn [Board.empty_from existsb].
  - reflexivity.
  - destruct (c =? EMPTY); cbn [orb negb]; [|apply IH].
    unfold len. cbn [List.length]. apply Z.eqb_neq. lia.
Qed.

Lemma no_empty_point (b : Board.t) :
  (len (Board.get_empty_points b) =? 0) = negb (has_empty b).
Proof. apply empty_from_nil. Qed.

(** The last step of the detector, in terms of what the passes signal.
    When neither colour's pass signals: on a board without an EMPTY cell
    the detector records the draw ([gameOver] true, [win_color] 3) and the
    final-result command answers "draw"; on a board with an EMPTY cell the
    detector leaves the connection as it is and the final-result command
    answers "unknown". *)
Lemma neither_colour_wins (C : Collaborators) (st : GtpConnection) (args : list string) :
  color_pass C (board st) BLACK = Ok false ->
  color_pass C (board st) WHITE = Ok false ->
  check_result C st
    = ((if has_empty (board st) then st else set_result st true 3), [], Ok tt) /\
  gogui_rules_final_result_cmd C args st
    = ((if has_empty (board st) then st else set_result st true 3),
       [Stdout (respond_frame (if has_empty (board st) then "unknown" else "draw"))],
       Ok tt).
Proof.
  intros Hb Hw. unfold check_result, gogui_rules_final_result_cmd. msimp.
  change 1 with BLACK. change 2 with WHITE. rewrite Hb. msimp. rewrite Hw. msimp.
  rewrite no_empty_point. destruct (has_empty (board st)); cbn [negb]; msimp.
  - split; reflexivity.
  - split; reflexivity.
Qed.

(** The full 2 x 2 board is a draw; the 5 x 5 board with one stone each
    is undecided. *)
Lemma neither_colour_wins_witness :
  (let st := state_after script_full2 in
   has_empty (board st) = false /\
   gogui_rules_final_result_cmd spec_collaborators [] st
     = (set_result st true 3, [Stdout (respond_frame "draw")], Ok tt)) /\
  (let st := state_after script_one_each in
   has_empty (board st) = true /\
   gogui_rules_final_result_cmd spec_collaborators [] st
     = (st, [Stdout (respond_frame "unknown")], Ok tt)).
Proof.
  split; cbv zeta; (split; [vm_compute; reflexivity|]).
  - apply (@neither_colour_wins spec_collaborators (state_after script_full2) []);
      vm_compute; reflexivity.
  - apply (@neither_colour_wins spec_collaborators (state_after script_one_each) []);
      vm_compute; reflexivity.
Defined.

(** C5, on two boards where neither colour has five in a line.  The full
    3 x 3 board (BLACK A1 A2 A3 B1 B2, WHITE the rest) has no EMPTY cell
    and no room for five in a line, yet the verdict is BLACK, not the draw:
    the column check counts A1 A2 A3, carries the count over to B1 B2 and
    finds it at five on the next false cell.  The 9 x 9 board with the six
    BLACK stones A1 B1 C1 A2 B2 C2 has EMPTY cells left, yet the verdict is
    BLACK, not "unknown".  In both cases the game is recorded as over. *)
Theorem no_five_yet_black_wins :
  let full := state_after script_full3 in
  let block := state_after script_block in
  (has_five (board full) BLACK = false /\ has_five (board full) WHITE = false /\
   has_empty (board full) = false /\
   check_result spec_collaborators full = (set_result full true BLACK, [], Ok tt) /\
   feed ["gogui-rules_final_result"] full
     = (set_result full true BLACK, [Stdout (respond_frame "black")], Ok tt)) /\
  (has_five (board block) BLACK = false /\ has_five (board block) WHITE = false /\
   has_empty (board block) = true /\
   check_result spec_collaborators block = (set_result block true BLACK, [], Ok tt) /\
   feed ["gogui-rules_final_result"] block
     = (set_result block true BLACK, [Stdout (respond_frame "black")], Ok tt)).
Proof. cbv zeta. repeat apply conj; vm_compute; reflexivity. Qed.

(** ** The detector as a method *)

(** [check_result] writes nothing and touches nothing but the recorded
    result: it raises and leaves the connection alone, returns and leaves
    it alone, or returns with a result recorded. *)
Lemma check_result_cases (C : Collaborators) (st : GtpConnection) :
  (exists e, check_result C st = (st, [], Raise e) /\
             (color_pass C (board st) 1 = Raise e \/ color_pass C (board st) 2 = Raise e)) \/
  check_result C st = (st, [], Ok tt) \/
  (exists winner, (winner = 1 \/ winner = 2 \/ winner = 3) /\
                  check_result C st = (set_result st true winner, [], Ok tt)).
Proof.
  unfold check_result. msimp.
  mcase (color_pass C (board st) 1) E1; [|left; eauto].
  destruct a; msimp; [right; right; exists 1; auto|].
  mcase (color_pass C (board st) 2) E2; [|left; eauto].
  destruct a; msimp; [right; right; exists 2; auto|].
  destruct (_ =? 0); msimp; [right; right; exists 3; auto|].
  right; left; reflexivity.
Qed.

Lemma check_result_returns (C : Collaborators) (st : GtpConnection) :
  scannable C (board st) ->
  check_result C st = (st, [], Ok tt) \/
  (exists winner, (winner = 1 \/ winner = 2 \/ winner = 3) /\
                  check_result C st = (set_result st true winner, [], Ok tt)).
Proof.
  intros Hs. destruct (check_result_cases C st) as [[e [_ [H|H]]]|H]; [| |exact H].
  - destruct (color_pass_total 1 Hs) as [f Hf]. congruence.
  - destruct (color_pass_total 2 Hs) as [f Hf]. congruence.
Qed.

Lemma spec_scannable (b : Board.t) : 1 <= Board.size b -> scannable spec_collaborators b.
Proof. intros H. split; [assumption|]. intros color p. simpl. lia. Qed.

(** ** genmove after the end of the game *)

(** The detector reads the board only: run on the state a run of it left,
    it returns with that state unchanged. *)
Lemma check_result_again (C : Collaborators) (st0 st : GtpConnection) (w0 : list event) :
  check_result C st0 = (st, w0, Ok tt) ->
  check_result C st = (st, [], Ok tt).
Proof.
  intros H. unfold check_result in H. revert H. msimp.
  mcase (color_pass C (board st0) 1) E1; [|discriminate].
  destruct a; msimp.
  { intros H. inversion H; subst. unfold check_result. msimp.
    cbn [board set_result]. rewrite E1. msimp. reflexivity. }
  mcase (color_pass C (board st0) 2) E2; [|discriminate].
  destruct a; msimp.
  { intros H. inversion H; subst. unfold check_result. msimp.
    cbn [board set_result]. rewrite E1. msimp. rewrite E2. msimp. reflexivity. }
  destruct (len (Board.get_empty_points (board st0)) =? 0) eqn:E; msimp.
  - intros H. inversion H; subst. unfold check_result. msimp.
    cbn [board set_result]. rewrite E1. msimp. rewrite E2. msimp. rewrite E. msimp.
    reflexivity.
  - intros H. inversion H; subst. unfold check_result. msimp.
    rewrite E1. msimp. rewrite E2. msimp. rewrite E. msimp. reflexivity.
Qed.

(** What [genmove] answers once the winner it has just determined is
    known. *)
Lemma genmove_answers (C : Collaborators) (tok : string) (color : Z)
    (st st1 : GtpConnection) :
  color_to_int (lower tok) = Ok color ->
  check_result C st = (st1, [], Ok tt) ->
  gameOver st1 = true ->
  win_color st1 = 1 \/ win_color st1 = 2 \/ win_color st1 = 3 ->
  genmove_cmd C [tok] st
    = (st1, [Stdout (respond_frame (genmove_answer (win_color st1) color))], Ok tt).
Proof.
  intros Hcol Hchk Hover1 Hwin.
  unfold genmove_cmd. msimp.
  replace (getitem [tok] 0) with (Ok tok) by reflexivity. msimp.
  rewrite Hcol. msimp.
  unfold bindM at 1. rewrite Hchk. msimp. rewrite Hover1. cbn [negb].
  unfold genmove_answer.
  replace (win_color st1 =? -1) with false
    by (symmetry; apply Z.eqb_neq; lia).
  cbn [negb andb].
  destruct (negb (win_color st1 =? color) && negb (win_color st1 =? 3)); msimp;
    [reflexivity|].
  destruct (win_color st1 =? 3); msimp; reflexivity.
Qed.

(** C7 as stated fails: the winner recorded before the request does not
    decide the answer.  After WHITE's win is recorded on the 5 x 5 board
    and BLACK has completed a row, the game is over with WHITE recorded;
    [genmove w], the request of the recorded winner, is answered "resign"
    and not with the empty response, because the detector is run first and
    now records BLACK.  And after BLACK's win is recorded on the 9 x 9
    board and BLACK has filled the top row, [genmove w] is answered with
    the empty response and not with "resign": the detector no longer finds
    BLACK's row, which now ends on the last cell, and records WHITE. *)
Lemma genmove_ignores_recorded_winner :
  let st := state_after script_white_recorded_black_row in
  let st9 := state_after script_black_recorded_top_row in
  (gameOver st = true /\ win_color st = WHITE /\
   genmove_answer (win_color st) WHITE = EmptyString /\
   genmove_cmd spec_collaborators ["w"] st
     = (set_result st true BLACK, [Stdout (respond_frame "resign")], Ok tt)) /\
  (gameOver st9 = true /\ win_color st9 = BLACK /\
   genmove_answer (win_color st9) WHITE = "resign" /\
   genmove_cmd spec_collaborators ["w"] st9
     = (set_result st9 true WHITE, [Stdout (respond_frame EmptyString)], Ok tt)).
Proof. cbv zeta. repeat apply conj; vm_compute; reflexivity. Qed.

(** C7, amended.  A [genmove] request made when the game is over, with a
    colour token the lookup knows, on a board the scans can run on: the
    detector is run again and returns with the game still over and a
    winner recorded, which need not be the winner recorded before; the
    answer is "resign" when the requesting colour is not the winner the
    detector has just recorded and the result is not a draw, "pass" when it
    is a draw, and the empty success response otherwise; the board, and
    with it the player to move, is unchanged.  When the request follows a
    run of the detector directly (the connection is as a run of
    [check_result] left it), the winner is the recorded one and nothing
    changes at all; in particular [genmove w] right after BLACK's win was
    recorded is answered "resign". *)
Theorem genmove_when_over (C : Collaborators) (tok : string) (color : Z)
    (st : GtpConnection) :
  gameOver st = true ->
  result_recorded st ->
  color_to_int (lower tok) = Ok color ->
  scannable C (board st) ->
  (exists st1,
     check_result C st = (st1, [], Ok tt) /\
     gameOver st1 = true /\
     (win_color st1 = BLACK \/ win_color st1 = WHITE \/ win_color st1 = 3) /\
     board st1 = board st /\
     genmove_cmd C [tok] st
       = (st1, [Stdout (respond_frame (genmove_answer (win_color st1) color))], Ok tt)) /\
  (forall st0 w0,
     check_result C st0 = (st, w0, Ok tt) ->
     genmove_cmd C [tok] st
       = (st, [Stdout (respond_frame (genmove_answer (win_color st) color))], Ok tt) /\
     (win_color st = BLACK -> color = WHITE ->
      genmove_cmd C [tok] st = (st, [Stdout (respond_frame "resign")], Ok tt))).
Proof.
  intros Hover [Hrec _] Hcol Hscan. specialize (Hrec Hover). split.
  - assert (K : exists st1, check_result C st = (st1, [], Ok tt) /\ gameOver st1 = true /\
                (win_color st1 = 1 \/ win_color st1 = 2 \/ win_color st1 = 3) /\
                board st1 = board st).
    { destruct (check_result_returns st Hscan) as [H|[winner [Hw H]]].
      - exists st. auto.
      - exists (set_result st true winner). auto. }
    destruct K as [st1 [Hchk [Hover1 [Hwin Hboard]]]].
    exists st1. repeat split; try assumption.
    now apply genmove_answers.
  - intros st0 w0 H0. apply check_result_again in H0.
    assert (G : genmove_cmd C [tok] st
                = (st, [Stdout (respond_frame (genmove_answer (win_color st) color))],
                   Ok tt))
      by now apply genmove_answers.
    split; [exact G|].
    intros Hb Hw. rewrite G, Hb, Hw. reflexivity.
Qed.

(** [genmove w] after BLACK's win was recorded answers "resign". *)
Lemma genmove_when_over_witness :
  let st := state_after script_black_recorded in
  win_color st = BLACK /\
  exists st1,
    genmove_cmd spec_collaborators ["w"] st
      = (st1, [Stdout (respond_frame "resign")], Ok tt) /\
    board st1 = board st.
Proof.
  cbv zeta. split; [reflexivity|].
  destruct (@genmove_when_over spec_collaborators "w" WHITE
              (state_after script_black_recorded))
    as [[st1 [Hchk [_ [_ [Hboard Hgen]]]]] _].
  - reflexivity.
  - split; [intros _; left; reflexivity | intros H; vm_compute in H; discriminate H].
  - reflexivity.
  - apply spec_scannable. vm_compute. discriminate.
  - exists st1. split; [|exact Hboard].
    rewrite Hgen. vm_compute in Hchk. inversion Hchk. reflexivity.
Defined.

(** ** Relating the state before and after a method *)

Lemma bind_run {A B} (m : M A) (k : A -> M B) (st : GtpConnection) :
  bindM m k st =
    match m st with
    | (st1, w1, Ok a) => let '(st2, w2, r) := k a st1 in (st2, (w1 ++ w2)%list, r)
    | (st1, w1, Raise e) => (st1, w1, Raise e)
    end.
Proof.
  unfold bindM. destruct (m st) as [[st1 w1] [a|e]]; [|reflexivity].
  now destruct (k a st1) as [[? ?] ?].
Qed.

Section Steps.

Variable R : GtpConnection -> GtpConnection -> Prop.
Hypothesis R_refl : forall st, R st st.
Hypothesis R_trans : forall a b c, R a b -> R b c -> R a c.

Lemma steps_ret {A} (a : A) : steps R (ret a).
Proof. intros st st' w r H. inversion H. apply R_refl. Qed.

Lemma steps_lift {A} (x : result A) : steps R (lift x).
Proof. intros st st' w r H. inversion H. apply R_refl. Qed.

Lemma steps_get : steps R get.
Proof. intros st st' w r H. inversion H. apply R_refl. Qed.

Lemma steps_write (ev : event) : steps R (write ev).
Proof. intros st st' w r H. inversion H. apply R_refl. Qed.

Lemma steps_respond (s : string) : steps R (respond s).
Proof. apply steps_write. Qed.

Lemma steps_error (s : string) : steps R (error s).
Proof. apply steps_write. Qed.

Lemma steps_bind {A B} (m : M A) (k : A -> M B) :
  steps R m -> (forall a, steps R (k a)) -> steps R (bindM m k).
Proof.
  intros Hm Hk st st' w r. rewrite bind_run.
  destruct (m st) as [[st1 w1] [a|e]] eqn:E.
  - destruct (k a st1) as [[st2 w2] r2] eqn:E2. intros H. inversion H; subst.
    eapply R_trans; [eapply Hm; eassumption | eapply Hk; eassumption].
  - intros H. inversion H; subst. eapply Hm; eassumption.
Qed.

Lemma steps_debug_msg (s : string) : steps R (debug_msg s).
Proof.
  unfold debug_msg. apply steps_bind; [apply steps_get|].
  intros a. destruct (debug_mode a); [apply steps_write | apply steps_ret].
Qed.


End Steps.

Ltac steps_step rfl trs :=
  first
    [ apply (@steps_ret _ rfl)
    | apply (@steps_lift _ rfl)
    | apply (@steps_get _ rfl)
    | apply (@steps_respond _ rfl)
    | apply (@steps_error _ rfl)
    | apply (@steps_write _ rfl)
    | apply (@steps_debug_msg _ rfl trs)
    | apply (@steps_bind _ trs); [|intros ?]
    | match goal with
      | |- steps _ (if ?b then _ else _) => destruct b
      | |- steps _ (match ?x with _ => _ end) => destruct x
      end ].





















(** ** The recorded result over a session *)




(** ** Failures inside a handler *)

Lemma debug_msg_run (s : string) (st : GtpConnection) :
  debug_msg s st = (st, (if debug_mode st then [Stderr s] else []), Ok tt).
Proof. unfold debug_msg. rewrite bind_get. destruct (debug_mode st); reflexivity. Qed.

(** C8 as stated fails: with debug mode off, [boardsize x] raises the
    [ValueError] of [int] out of [get_cmd] and nothing at all is written,
    so the failure is not logged. *)
Lemma failure_is_not_logged_without_debug :
  let out := get_cmd spec_collaborators ("boardsize x" ++ nl) fresh in
  snd out = Raise (ValueError "invalid literal for int() with base 10: 'x'") /\
  snd (fst out) = [] /\
  ~ (exists s, In (Stderr s) (snd (fst out))).
Proof.
  cbv zeta. split; [vm_compute; reflexivity|]. split; [vm_compute; reflexivity|].
  intros [s H]. vm_compute in H. exact H.
Qed.

(** C8, amended.  For a known command with the right number of arguments,
    an [Exception] the handler raises is raised again by [get_cmd] after
    what the handler wrote, in the state the handler left; the two debug
    messages (the error text and the trace) are written in between exactly
    when debug mode is on; and the session stops there, the lines that
    follow are not read.  The play handler lets nothing out: whatever its
    arguments, it returns after exactly one response, and every failure
    raised in its body, which has written nothing and changed nothing by
    then, is answered with the success response "Error: " followed by the
    text of the exception. *)
Theorem handler_failure_is_reraised (C : Collaborators) (line name : string)
    (args : list string) (handler : list string -> M unit)
    (st st' : GtpConnection) (w : list event) (e : exn) (rest : list string) :
  tokens line = name :: args ->
  arity_ok name (len args) = true ->
  commands C name = Some handler ->
  handler args st = (st', w, Raise e) ->
  is_Exception e = true ->
  get_cmd C line st = (st', (w ++ failure_log C (debug_mode st') e)%list, Raise e) /\
  start_connection C (line :: rest) st
    = (st', (w ++ failure_log C (debug_mode st') e)%list, Raise e) /\
  (forall pargs pst,
     (exists pst' msg,
        play_cmd pargs pst = (pst', [Stdout (respond_frame msg)], Ok tt)) /\
     (forall pst' pw pe,
        play_body pargs pst = (pst', pw, Raise pe) ->
        pst' = pst /\ pw = [] /\
        play_cmd pargs pst
          = (pst, [Stdout (respond_frame ("Error: " ++ str_of_exn pe))], Ok tt))).
Proof.
  intros Htok Har Hcmd Hrun Hexc.
  assert (G : get_cmd C line st
              = (st', (w ++ failure_log C (debug_mode st') e)%list, Raise e)).
  { unfold get_cmd. rewrite Htok. rewrite bind_run.
    assert (A : has_arg_error name (len args) st = (st, [], Ok false)).
    { unfold has_arg_error, arity_ok in *.
      destruct (argmap name) as [[n usage]|]; [|reflexivity].
      rewrite Har. reflexivity. }
    rewrite A. rewrite Hcmd. unfold guarded, try_except. rewrite Hrun, Hexc.
    rewrite bind_run, debug_msg_run. cbv beta iota.
    rewrite bind_run, debug_msg_run. cbv beta iota.
    unfold failure_log. destruct (debug_mode st'); reflexivity. }
  split; [exact G|]. split.
  - cbn [start_connection]. rewrite bind_run, G. reflexivity.
  - intros pargs pst. split.
    + destruct (play_cmd_outcome pargs pst) as [[msg H]|[b' H]]; rewrite H; eauto.
    + intros pst' pw pe Hbody.
      destruct (play_body_outcome pargs pst) as [[e0 [H He]]|[[msg H]|[b' H]]];
        rewrite H in Hbody; inversion Hbody; subst.
      repeat split.
      unfold play_cmd, try_except. rewrite H, He. reflexivity.
Qed.

(** With debug mode on, [boardsize x] is logged and raised again; and
    [play x A1], whose colour lookup raises a [KeyError], is answered. *)
Lemma handler_failure_is_reraised_witness :
  let st := init (Board.mk 0 [] BLACK) true in
  let e := ValueError "invalid literal for int() with base 10: 'x'" in
  get_cmd spec_collaborators ("boardsize x" ++ nl) st
    = (st, failure_log spec_collaborators true e, Raise e) /\
  play_cmd ["x"; "A1"] st = (st, [Stdout (respond_frame "Error: 'x'")], Ok tt).
Proof.
  cbv zeta.
  destruct (@handler_failure_is_reraised spec_collaborators ("boardsize x" ++ nl)
              "boardsize" ["x"] boardsize_cmd
              (init (Board.mk 0 [] BLACK) true) (init (Board.mk 0 [] BLACK) true) []
              (ValueError "invalid literal for int() with base 10: 'x'") [])
    as [G [_ P]]; try reflexivity.
  split; [exact G|].
  destruct (P ["x"; "A1"] (init (Board.mk 0 [] BLACK) true)) as [_ Q].
  destruct (Q (init (Board.mk 0 [] BLACK) true) [] (KeyError "x")) as [_ [_ R]];
    [reflexivity | exact R].
Defined.


(** ** genmove and the board *)

Lemma steps_same_board_check_result (C : Collaborators) :
  steps same_board (check_result C).
Proof.
  intros st st' w r H.
  destruct (check_result_cases C st) as [[e [H1 _]]|[H1|[winner [Hw H1]]]];
    rewrite H1 in H; inversion H; subst; reflexivity.
Qed.

(** Game over or not, answering or raising, [genmove_cmd] leaves the board
    and the player to move as they are. *)
Lemma genmove_keeps_board (C : Collaborators) (args : list string) :
  steps same_board (genmove_cmd C args).
Proof.
  assert (Hr : forall st, same_board st st) by reflexivity.
  assert (Ht : forall a b c, same_board a b -> same_board b c -> same_board a c)
    by (unfold same_board; intros; congruence).
  unfold genmove_cmd.
  repeat first [ apply steps_same_board_check_result | steps_step Hr Ht ].
Qed.

(** ** The row check *)

Lemma row_scan_run (n : nat) (l : list bool) (count : Z) :
  row_scan (repeat true n ++ l) count = row_scan l (count + Z.of_nat n).
Proof.
  revert count. induction n as [|n IH]; intros count.
  - simpl. f_equal. lia.
  - cbn [repeat app row_scan]. rewrite IH. f_equal. lia.
Qed.

(** A run of five or more true positions that is followed by a false one
    is signalled by the row check, whatever precedes it. *)
Lemma row_scan_finds_run (pre post : list bool) (n : nat) (count : Z) :
  0 <= count -> (5 <= n)%nat ->
  row_scan (pre ++ repeat true n ++ false :: post) count = true.
Proof.
  intros Hc Hn. revert count Hc. induction pre as [|[|] pre IH]; intros count Hc.
  - cbn [app]. rewrite row_scan_run. cbn [row_scan].
    replace (5 <=? count + Z.of_nat n) with true by (symmetry; apply Z.leb_le; lia).
    reflexivity.
  - cbn [app row_scan]. apply IH. lia.
  - cbn [app row_scan]. destruct (5 <=? count); [reflexivity|]. apply IH. lia.
Qed.

(** A run that reaches the last position of the mask is not: the count is
    tested at false positions only. *)
Lemma row_scan_misses_final_run (n : nat) :
  row_scan (false :: repeat true n) 0 = false.
Proof.
  cbn [row_scan]. replace (5 <=? 0) with false by reflexivity.
  rewrite <- (app_nil_r (repeat true n)), row_scan_run. reflexivity.
Qed.

(** ** What the column and diagonal checks do find *)

Lemma count_true_grows (l : list bool) (js : list Z) (count c : Z) :
  count_true l js count = Ok c -> count <= c.
Proof.
  revert count. induction js as [|j r IH]; intros count; cbn [count_true].
  - intros H. inversion H. lia.
  - destruct (getitem l j) as [b|e]; [|discriminate]. cbn [bind].
    intros H. apply IH in H. destruct b; lia.
Qed.

(** Once the count has reached five, the next false position signals. *)
Lemma stride_scan_flags (l : list bool) (stop stride : Z) (rest : list bool) (i count : Z) :
  0 < stride -> stop <= len l -> 0 <= i -> 5 <= count -> In false rest ->
  stride_scan l stop stride rest i count = Ok true.
Proof.
  intros Hs Hstop. revert i count.
  induction rest as [|[|] r IH]; intros i count Hi Hc Hin; cbn [stride_scan].
  - destruct Hin.
  - destruct (py_range_positive i stop Hs) as [js Hjs]. rewrite Hjs. cbn [bind].
    rewrite count_true_counts
      by (intros j Hj; pose proof (py_range_bounds _ _ Hs Hjs j Hj); lia).
    cbn [bind]. apply IH; [lia| |].
    + unfold len. lia.
    + destruct Hin as [Hin|Hin]; [discriminate|assumption].
  - replace (5 <=? count) with true by (symmetry; apply Z.leb_le; lia). reflexivity.
Qed.

Lemma py_range_five (start stop step : Z) :
  0 < step -> start + 4 * step < stop ->
  exists tl, py_range start stop step
             = Ok (start :: start + step :: start + 2 * step :: start + 3 * step
                         :: start + 4 * step :: tl).
Proof.
  intros Hs Hlast. unfold py_range.
  replace (step =? 0) with false by (symmetry; apply Z.eqb_neq; lia).
  replace (0 <? step) with true by (symmetry; apply Z.ltb_lt; lia).
  assert (Hn : 5 <= (stop - start + step - 1) / step).
  { apply Z.div_le_lower_bound; lia. }
  destruct (Z.to_nat ((stop - start + step - 1) / step)) as [|[|[|[|[|n]]]]] eqn:E; try lia.
  cbn [seq map]. eexists. f_equal.
  repeat (f_equal; try lia).
Qed.

Lemma skipn_cons_nth {A} (l : list A) (i : nat) (d : A) :
  (i < List.length l)%nat -> skipn i l = nth i l d :: skipn (S i) l.
Proof.
  revert i. induction l as [|x r IH]; intros i H; cbn [List.length] in H; [lia|].
  destruct i as [|i]; [reflexivity|].
  cbn [skipn nth]. apply IH. lia.
Qed.

Lemma In_skipn_nth {A} (l : list A) (i j : nat) (d : A) :
  (i <= j)%nat -> (j < List.length l)%nat -> In (nth j l d) (skipn i l).
Proof.
  revert i j. induction l as [|x r IH]; intros i j Hij Hj; cbn [List.length] in Hj; [lia|].
  destruct i as [|i].
  - cbn [skipn]. apply nth_In. cbn [List.length]. lia.
  - destruct j as [|j]; [lia|]. cbn [skipn nth]. apply IH; lia.
Qed.

(** Five true positions in a row along the stride, starting at position
    [s], are signalled as soon as some later position of the mask is
    false. *)
Lemma stride_scan_finds_run (l : list bool) (stop stride : Z) (s j : nat) :
  0 < stride -> stop <= len l ->
  Z.of_nat s + 4 * stride < stop ->
  (forall k, In k [0; 1; 2; 3; 4] ->
             nth (Z.to_nat (Z.of_nat s + k * stride)) l false = true) ->
  (s < j)%nat -> (j < List.length l)%nat -> nth j l true = false ->
  forall (d i : nat) (count : Z),
    (i + d = s)%nat -> 0 <= count ->
    stride_scan l stop stride (skipn i l) (Z.of_nat i) count = Ok true.
Proof.
  intros Hs Hstop Hlast Hrun Hsj Hj Hfalse.
  assert (Hslen : (s < List.length l)%nat) by lia.
  induction d as [|d IH]; intros i count Hi Hc.
  - replace i with s by lia.
    rewrite (skipn_cons_nth l false Hslen).
    pose proof (Hrun 0 ltac:(simpl; auto)) as H0.
    replace (Z.to_nat (Z.of_nat s + 0 * stride)) with s in H0 by lia.
    rewrite H0. cbn [stride_scan].
    destruct (@py_range_five (Z.of_nat s) stop stride Hs Hlast) as [tl Hjs].
    rewrite Hjs. cbn [bind].
    rewrite count_true_counts
      by (intros x Hx; pose proof (py_range_bounds _ _ Hs Hjs x Hx); lia).
    cbn [bind].
    replace (Z.of_nat s + 1) with (Z.of_nat (S s)) by lia.
    apply stride_scan_flags; try lia.
    + cbn [filter].
      replace (Z.of_nat s) with (Z.of_nat s + 0 * stride) at 1 by lia.
      replace (Z.of_nat s + stride) with (Z.of_nat s + 1 * stride) by lia.
      rewrite !Hrun by (simpl; auto 10).
      unfold len. cbn [List.length]. lia.
    + rewrite <- Hfalse. apply In_skipn_nth; lia.
  - assert (Hil : (i < List.length l)%nat) by lia.
    rewrite (skipn_cons_nth l false Hil).
    replace (Z.of_nat i + 1) with (Z.of_nat (S i)) by lia.
    destruct (nth i l false); cbn [stride_scan].
    + destruct (py_range_positive (Z.of_nat i) stop Hs) as [js Hjs]. rewrite Hjs.
      cbn [bind].
      rewrite count_true_counts
        by (intros x Hx; pose proof (py_range_bounds _ _ Hs Hjs x Hx); lia).
      cbn [bind].
      replace (Z.of_nat i + 1) with (Z.of_nat (S i)) by lia.
      apply IH; [lia|]. unfold len. lia.
    + destruct (5 <=? count); [reflexivity|].
      replace (Z.of_nat i + 1) with (Z.of_nat (S i)) by lia.
      apply IH; lia.
Qed.

(** * Further properties of the codec *)

Lemma ord_eq (c d : ascii) : ord c = ord d -> c = d.
Proof.
  unfold ord. intros H. apply Nat2Z.inj in H.
  rewrite <- (ascii_nat_embedding c), <- (ascii_nat_embedding d). now rewrite H.
Qed.

Lemma parse_point_bounds (s : string) (row col : Z) :
  parse_point s = Ok (row, col) -> 1 <= row /\ 1 <= col <= 25.
Proof.
  unfold parse_point. destruct (head s) as [c|e]; [|discriminate]. cbn [bind].
  destruct (negb ((ord "a" <=? ord c) && (ord c <=? ord "z"))) eqn:Hr; [discriminate|].
  destruct (Ascii.eqb c "i") eqn:Hi; [discriminate|]. cbn [orb].
  destruct (int (tail s)) as [r|e]; [|discriminate]. cbn [bind].
  destruct (r <? 1) eqn:Hrow; [discriminate|].
  intros H. inversion H; subst; clear H.
  apply Z.ltb_ge in Hrow. apply negb_false_iff, andb_prop in Hr. destruct Hr as [Ha Hz].
  apply Z.leb_le in Ha, Hz. apply Ascii.eqb_neq in Hi.
  assert (ord c <> ord "i") by (intros X; apply Hi; now apply ord_eq).
  change (ord "a") with 97 in *. change (ord "z") with 122 in *.
  change (ord "i") with 105 in *.
  split; [lia|]. destruct (ord c <? 105) eqn:E.
  - apply Z.ltb_lt in E. lia.
  - apply Z.ltb_ge in E. lia.
Qed.

Lemma move_to_coord_accepts (s : string) (board_size row col : Z) :
  move_to_coord s board_size = Ok (Some (row, col)) ->
  parse_point (lower s) = Ok (row, col) /\
  row <= board_size /\ col <= board_size /\ 2 <= board_size <= MAXSIZE.
Proof.
  unfold move_to_coord.
  destruct (negb ((2 <=? board_size) && (board_size <=? MAXSIZE))) eqn:Hn; [discriminate|].
  destruct (String.eqb (lower s) "pass"); [discriminate|].
  destruct (parse_point (lower s)) as [[r c]|e] eqn:P.
  - destruct (negb ((c <=? board_size) && (r <=? board_size))) eqn:Hb; [discriminate|].
    intros H. inversion H; subst; clear H.
    apply negb_false_iff, andb_prop in Hn. destruct Hn as [Hn1 Hn2].
    apply negb_false_iff, andb_prop in Hb. destruct Hb as [Hb1 Hb2].
    apply Z.leb_le in Hn1, Hn2, Hb1, Hb2. auto.
  - destruct e; discriminate.
Qed.

(** X1.  What [move_to_coord] returns is on the board: a returned pair
    (row, col) has both coordinates between 1 and [board_size], and the
    board size itself is between 2 and [MAXSIZE]. *)
Theorem move_to_coord_in_range (s : string) (board_size row col : Z) :
  move_to_coord s board_size = Ok (Some (row, col)) ->
  1 <= row <= board_size /\ 1 <= col <= board_size /\ 2 <= board_size <= MAXSIZE.
Proof.
  intros H. destruct (@move_to_coord_accepts _ _ _ _ H) as [P [Hr [Hc Hn]]].
  apply parse_point_bounds in P. lia.
Qed.

Lemma move_to_coord_in_range_witness :
  1 <= 4 <= 9 /\ 1 <= 4 <= 9 /\ 2 <= 9 <= MAXSIZE.
Proof.
  apply (@move_to_coord_in_range "D4" 9 4 4). reflexivity.
Defined.

(** X2.  Whatever [move_to_coord] accepts can be encoded and decoded
    again, except on the last line of a 25 x 25 board: for a returned pair
    (row, col), [format_point] followed by [move_to_coord] gives the pair
    back when both coordinates are below 25 and raises [ValueError]
    otherwise. *)
Theorem decoded_point_roundtrip (s : string) (board_size row col : Z) :
  move_to_coord s board_size = Ok (Some (row, col)) ->
  decode_encoded board_size row col
    = if (row <? 25) && (col <? 25) then Ok (Some (row, col))
      else Raise (ValueError "").
Proof.
  intros H. destruct (@move_to_coord_accepts _ _ _ _ H) as [P [Hr [Hc Hn]]].
  apply parse_point_bounds in P. unfold MAXSIZE in Hn.
  destruct ((row <? 25) && (col <? 25)) eqn:E.
  - apply andb_prop in E. destruct E as [E1 E2]. apply Z.ltb_lt in E1, E2.
    apply roundtrip_below_MAXSIZE; unfold MAXSIZE; lia.
  - unfold decode_encoded. rewrite format_point_refuses_MAXSIZE; [reflexivity|].
    unfold MAXSIZE. apply andb_false_iff in E. destruct E as [E|E]; apply Z.ltb_ge in E; lia.
Qed.

Lemma decoded_point_roundtrip_witness :
  decode_encoded 9 4 4 = Ok (Some (4, 4)) /\
  decode_encoded 25 25 25 = Raise (ValueError "").
Proof.
  split.
  - apply (@decoded_point_roundtrip "d04" 9 4 4). reflexivity.
  - apply (@decoded_point_roundtrip "z25" 25 25 25). reflexivity.
Defined.

(** X3.  Everything [move_to_coord] raises is a [ValueError], with one of
    three messages: the board size is out of range, the point is invalid,
    or the point is off the board (the last two quote the lowered
    string). *)
Theorem move_to_coord_raises_ValueError (s : string) (board_size : Z) (e : exn) :
  move_to_coord s board_size = Raise e ->
  e = ValueError "board_size out of range" \/
  e = ValueError ("invalid point: '" ++ lower s ++ "'") \/
  e = ValueError ("point off board: '" ++ lower s ++ "'").
Proof.
  unfold move_to_coord.
  destruct (negb _); [intros H; inversion H; auto|].
  destruct (String.eqb _ _); [discriminate|].
  destruct (parse_point (lower s)) as [[row col]|e0] eqn:P.
  - destruct (negb _); intros H; inversion H; auto.
  - unfold parse_point in P.
    destruct (head (lower s)) as [c|e1] eqn:Hh; cbn [bind] in P.
    + destruct (_ || _); [inversion P; subst; intros H; inversion H; auto|].
      destruct (int (tail (lower s))) as [r|e2] eqn:Hi; cbn [bind] in P.
      * destruct (_ <? _); inversion P; subst. intros H; inversion H; auto.
      * inversion P; subst. unfold int in Hi.
        destruct (match strip isspace (tail (lower s)) with
                  | EmptyString => _ | String _ _ => _ end); inversion Hi; subst.
        intros H; inversion H; auto.
    + inversion P; subst. destruct (lower s); inversion Hh; subst.
      intros H; inversion H; auto.
Qed.

Lemma move_to_coord_raises_ValueError_witness :
  ValueError "point off board: 'k4'" = ValueError "board_size out of range" \/
  ValueError "point off board: 'k4'" = ValueError ("invalid point: '" ++ lower "K4" ++ "'") \/
  ValueError "point off board: 'k4'" = ValueError ("point off board: '" ++ lower "K4" ++ "'").
Proof.
  apply (@move_to_coord_raises_ValueError "K4" 9). reflexivity.
Defined.

(** X4.  The letter I names no column: for a board size from 2 to 25 every
    string that starts with "i" or "I" is refused as an invalid point. *)
Theorem move_to_coord_refuses_i (c : ascii) (rest : string) (board_size : Z) :
  c = "i"%char \/ c = "I"%char ->
  2 <= board_size <= MAXSIZE ->
  move_to_coord (String c rest) board_size
    = Raise (ValueError ("invalid point: 'i" ++ lower rest ++ "'")).
Proof.
  intros Hc Hn. unfold move_to_coord.
  replace ((2 <=? board_size) && (board_size <=? MAXSIZE)) with true
    by (symmetry; apply andb_true_intro; split; apply Z.leb_le; lia).
  cbn [negb].
  assert (L : lower (String c rest) = String "i" (lower rest))
    by (destruct Hc; subst; reflexivity).
  rewrite L. reflexivity.
Qed.

Lemma move_to_coord_refuses_i_witness :
  move_to_coord "I5" 9 = Raise (ValueError "invalid point: 'i5'").
Proof.
  apply (@move_to_coord_refuses_i "I" "5" 9); [now right | unfold MAXSIZE; lia].
Defined.

(** X5.  PASS survives the codec: on every board size from 2 to 25,
    [format_point] gives "PASS" and [move_to_coord] reads it, in whatever
    case it is written, as PASS. *)
Theorem pass_roundtrip (s : string) (board_size : Z) :
  lower s = "pass" ->
  2 <= board_size <= MAXSIZE ->
  format_point PASS = Ok "PASS" /\
  move_to_coord "PASS" board_size = Ok PASS /\
  move_to_coord s board_size = Ok PASS.
Proof.
  intros Hs Hn. unfold move_to_coord.
  replace ((2 <=? board_size) && (board_size <=? MAXSIZE)) with true
    by (symmetry; apply andb_true_intro; split; apply Z.leb_le; lia).
  rewrite Hs. repeat split.
Qed.

Lemma pass_roundtrip_witness : move_to_coord "Pass" 19 = Ok PASS.
Proof.
  apply (@pass_roundtrip "Pass" 19); [reflexivity | unfold MAXSIZE; lia].
Defined.

Lemma format_point_table :
  forallb (fun col =>
    match getitem column_letters (col - 1) with
    | Ok c => Ascii.eqb c (nth (Z.to_nat ((col - 1) mod 25)) column_letters "A"%char)
    | Raise _ => false
    end) (Zrange 0 25) = true.
Proof. vm_compute. reflexivity. Qed.

(** X6.  [format_point] accepts exactly the pairs with both coordinates in
    0 .. 24, which includes row 0 and column 0 although they are off the
    board: the row is written in decimal after the letter at position
    [col - 1] of the 25 column letters, and for column 0 that position, -1,
    is the last letter, "Z".  Every other pair raises [ValueError]. *)
Theorem format_point_range (row col : Z) :
  format_point (Some (row, col))
    = if (0 <=? row) && (row <? 25) && ((0 <=? col) && (col <? 25))
      then Ok (String (nth (Z.to_nat ((col - 1) mod 25)) column_letters "A"%char)
                      (str_of_Z row))
      else Raise (ValueError "").
Proof.
  unfold format_point, MAXSIZE.
  destruct ((0 <=? row) && (row <? 25)) eqn:Hr; cbn [negb orb andb]; [|reflexivity].
  destruct ((0 <=? col) && (col <? 25)) eqn:Hc; cbn [negb]; [|reflexivity].
  apply andb_prop in Hc. destruct Hc as [Hc1 Hc2].
  apply Z.leb_le in Hc1. apply Z.ltb_lt in Hc2.
  pose proof format_point_table as T. rewrite forallb_forall in T.
  specialize (T col (@Zrange_In 0 25 col ltac:(simpl; lia))). cbv beta in T.
  destruct (getitem column_letters (col - 1)) as [c|e]; [|discriminate].
  apply Ascii.eqb_eq in T. subst. reflexivity.
Qed.

(** X7.  [point_to_coord] inverts the linear index of a cell: for a board
    size other than -1 and a column from 0 to the size, the point
    [(size + 1) * row + col] is mapped back to (row, col), for every row. *)
Theorem point_to_coord_of_index (boardsize row col : Z) :
  0 <= col <= boardsize ->
  point_to_coord ((boardsize + 1) * row + col) boardsize = Ok (Some (row, col)).
Proof.
  intros H. unfold point_to_coord.
  replace (boardsize + 1 =? 0) with false by (symmetry; apply Z.eqb_neq; lia).
  f_equal. f_equal. f_equal.
  - symmetry. apply Z.div_unique with (r := col); lia.
  - symmetry. apply Z.mod_unique with (q := row); lia.
Qed.

Lemma point_to_coord_of_index_witness :
  point_to_coord 44 9 = Ok (Some (4, 4)).
Proof.
  apply (@point_to_coord_of_index 9 4 4). lia.
Defined.

(** X8.  On a lowered token [color_to_int] knows three colours only: it
    returns BLACK for "b", WHITE for "w", EMPTY for "e" and raises
    [KeyError] on everything else.  The key "BORDER" cannot be reached
    through [args[0].lower()], so the test [color == 3] of [play_cmd] never
    holds. *)
Theorem color_to_int_of_lowered (tok : string) :
  (lower tok = "b" /\ color_to_int (lower tok) = Ok BLACK) \/
  (lower tok = "w" /\ color_to_int (lower tok) = Ok WHITE) \/
  (lower tok = "e" /\ color_to_int (lower tok) = Ok EMPTY) \/
  color_to_int (lower tok) = Raise (KeyError (lower tok)).
Proof.
  unfold color_to_int.
  destruct (String.eqb (lower tok) "b") eqn:Eb;
    [apply String.eqb_eq in Eb; left; now rewrite Eb|].
  destruct (String.eqb (lower tok) "w") eqn:Ew;
    [apply String.eqb_eq in Ew; right; left; now rewrite Ew|].
  destruct (String.eqb (lower tok) "e") eqn:Ee;
    [apply String.eqb_eq in Ee; right; right; left; now rewrite Ee|].
  right; right; right.
  destruct (String.eqb (lower tok) "BORDER") eqn:B; [|reflexivity].
  apply String.eqb_eq in B. destruct tok as [|c r]; simpl in B; [discriminate|].
  inversion B as [[B1 B2]]. now apply lower_char_not_B in B1.
Qed.

(** * Further properties of the dispatcher *)

Lemma split_aux_blank (s : string) :
  forallb isspace (list_ascii_of_string s) = true -> split_aux s EmptyString = [].
Proof.
  induction s as [|c r IH]; cbn [list_ascii_of_string forallb split_aux]; [reflexivity|].
  intros H. apply andb_prop in H. destruct H as [Hc Hr]. rewrite Hc. now apply IH.
Qed.

Lemma tokens_comment (rest : string) : tokens (String "#" rest) = [].
Proof.
  unfold tokens. destruct (_ =? 0); reflexivity.
Qed.

Lemma tokens_blank (line : string) :
  forallb isspace (list_ascii_of_string line) = true -> tokens line = [].
Proof.
  intros H. unfold tokens. destruct (_ =? 0); [reflexivity|].
  destruct line as [|c0 rest]; [reflexivity|].
  destruct (Ascii.eqb c0 "#"); [reflexivity|].
  assert (Hc : isspace c0 = true).
  { cbn [list_ascii_of_string forallb] in H. now apply andb_prop in H. }
  assert (Hd : isdigit c0 = false).
  { unfold isspace, isdigit in *. destruct ((48 <=? ord c0) && (ord c0 <=? 57)) eqn:E;
      [|reflexivity].
    apply andb_prop in E. destruct E as [E1 E2]. apply Z.leb_le in E1, E2.
    apply orb_prop in Hc. destruct Hc as [Hc|Hc]; apply andb_prop in Hc;
      destruct Hc as [H1 H2]; apply Z.leb_le in H1, H2; lia. }
  rewrite Hd. now apply split_aux_blank.
Qed.

(** X9.  A line that starts with "#" and a line made of blanks only (the
    line feed of an empty line included) are ignored: [get_cmd] writes
    nothing, changes nothing and returns. *)
Theorem ignored_line (C : Collaborators) (line : string) (st : GtpConnection) :
  (exists rest, line = String "#" rest) \/
  forallb isspace (list_ascii_of_string line) = true ->
  get_cmd C line st = (st, [], Ok tt).
Proof.
  intros H. unfold get_cmd.
  assert (T : tokens line = []).
  { destruct H as [[rest ->]|H]; [apply tokens_comment | now apply tokens_blank]. }
  rewrite T. reflexivity.
Qed.

Lemma ignored_line_witness :
  get_cmd spec_collaborators ("# a comment" ++ nl) fresh = (fresh, [], Ok tt) /\
  get_cmd spec_collaborators (" " ++ nl) fresh = (fresh, [], Ok tt).
Proof.
  split.
  - apply (@ignored_line spec_collaborators ("# a comment" ++ nl) fresh).
    left. eexists. reflexivity.
  - apply (@ignored_line spec_collaborators (" " ++ nl) fresh).
    right. reflexivity.
Defined.

Lemma unknown_has_no_arity (C : Collaborators) (name : string) :
  commands C name = None -> argmap name = None.
Proof.
  unfold commands, argmap. intros H.
  repeat match type of H with
         | (if ?b then _ else _) = _ => destruct b eqn:?; [discriminate|]
         end.
  reflexivity.
Qed.

(** X10.  A command name that is not in the table is answered with the
    error response "? Unknown command" and nothing else on the output; the
    connection is unchanged and [get_cmd] returns, so the session goes on.
    In debug mode the name is written to the debug stream first. *)
Theorem unknown_command (C : Collaborators) (line name : string) (args : list string)
    (st : GtpConnection) :
  tokens line = name :: args ->
  commands C name = None ->
  get_cmd C line st
    = (st,
       ((if debug_mode st then [Stderr ("Unknown command: " ++ name ++ nl)] else [])
        ++ [Stdout ("? Unknown command" ++ nl ++ nl)])%list,
       Ok tt).
Proof.
  intros Htok Hcmd. unfold get_cmd. rewrite Htok.
  unfold has_arg_error. rewrite (unknown_has_no_arity C name Hcmd). msimp.
  rewrite Hcmd. rewrite bind_run, debug_msg_run. cbv beta iota.
  reflexivity.
Qed.

Lemma unknown_command_witness :
  get_cmd spec_collaborators ("foo" ++ nl) fresh
    = (fresh, [Stdout ("? Unknown command" ++ nl ++ nl)], Ok tt).
Proof.
  apply (@unknown_command spec_collaborators ("foo" ++ nl) "foo" [] fresh); reflexivity.
Defined.

(** X11.  A command called with a number of arguments other than the one
    [argmap] asks for is answered with its usage message as an error
    response; its handler is not run, the connection is unchanged and
    [get_cmd] returns. *)
Theorem wrong_arity (C : Collaborators) (line name usage : string) (args : list string)
    (n : Z) (st : GtpConnection) :
  tokens line = name :: args ->
  argmap name = Some (n, usage) ->
  n <> len args ->
  get_cmd C line st = (st, [Stdout ("? " ++ usage ++ nl ++ nl)], Ok tt).
Proof.
  intros Htok Harg Hn. unfold get_cmd. rewrite Htok.
  unfold has_arg_error. rewrite Harg.
  replace (n =? len args) with false by (symmetry; now apply Z.eqb_neq).
  cbn [negb]. reflexivity.
Qed.

Lemma wrong_arity_witness :
  get_cmd spec_collaborators ("play b" ++ nl) fresh
    = (fresh, [Stdout ("? Usage: play {b,w} MOVE" ++ nl ++ nl)], Ok tt).
Proof.
  apply (@wrong_arity spec_collaborators ("play b" ++ nl) "play"
           "Usage: play {b,w} MOVE" ["b"] 2 fresh); [reflexivity|reflexivity|].
  vm_compute. discriminate.
Defined.

(** ** Line numbers *)

Lemma lstrip_app (p : ascii -> bool) (ds rest : string) :
  forallb p (list_ascii_of_string ds) = true ->
  lstrip p (ds ++ rest) = lstrip p rest.
Proof.
  induction ds as [|c r IH]; cbn [list_ascii_of_string forallb]; [reflexivity|].
  intros H. apply andb_prop in H. destruct H as [Hc Hr].
  change (String c r ++ rest)%string with (String c (r ++ rest)).
  cbn [lstrip]. rewrite Hc. now apply IH.
Qed.

Lemma split_aux_lstrip (s : string) :
  split_aux (lstrip isspace s) EmptyString = split_aux s EmptyString.
Proof.
  induction s as [|c r IH]; [reflexivity|].
  cbn [lstrip]. destruct (isspace c) eqn:E; [|reflexivity].
  cbn [split_aux]. rewrite E. exact IH.
Qed.

Lemma existsb_rev_string (f : ascii -> bool) (s acc : string) :
  existsb f (list_ascii_of_string (rev_string s acc))
  = (existsb f (list_ascii_of_string s) || existsb f (list_ascii_of_string acc)).
Proof.
  revert acc. induction s as [|c r IH]; intros acc; [reflexivity|].
  cbn [rev_string]. rewrite IH. cbn [list_ascii_of_string existsb].
  destruct (f c), (existsb f (list_ascii_of_string r)),
    (existsb f (list_ascii_of_string acc)); reflexivity.
Qed.

Lemma lstrip_keeps (p : ascii -> bool) (s : string) :
  existsb (fun c => negb (p c)) (list_ascii_of_string (lstrip p s))
  = existsb (fun c => negb (p c)) (list_ascii_of_string s).
Proof.
  induction s as [|c r IH]; [reflexivity|].
  cbn [lstrip]. destruct (p c) eqn:E; [|reflexivity].
  cbn [list_ascii_of_string existsb]. rewrite E. exact IH.
Qed.

Lemma strip_keeps (p : ascii -> bool) (s : string) :
  existsb (fun c => negb (p c)) (list_ascii_of_string (strip p s))
  = existsb (fun c => negb (p c)) (list_ascii_of_string s).
Proof.
  unfold strip, rstrip.
  rewrite existsb_rev_string, lstrip_keeps, existsb_rev_string, lstrip_keeps.
  cbn [list_ascii_of_string existsb]. now rewrite !orb_false_r.
Qed.

Lemma forallb_or_existsb {A} (p : A -> bool) (l : list A) :
  forallb p l = negb (existsb (fun c => negb (p c)) l).
Proof.
  induction l as [|a r IH]; [reflexivity|].
  cbn [forallb existsb]. rewrite IH. now destruct (p a).
Qed.

(** The blank test of [get_cmd] fires only on a line made of the three
    characters it strips. *)
Lemma blank_test (s : string) :
  (len (list_ascii_of_string (strip blank_rt s)) =? 0) = true ->
  forallb blank_rt (list_ascii_of_string s) = true.
Proof.
  intros H. rewrite forallb_or_existsb, <- strip_keeps.
  destruct (list_ascii_of_string (strip blank_rt s)); [reflexivity|].
  unfold len in H. cbn [List.length] in H. apply Z.eqb_eq in H. lia.
Qed.

Lemma blank_test_fails (c : ascii) (s : string) :
  blank_rt c = false ->
  (len (list_ascii_of_string (strip blank_rt (String c s))) =? 0) = false.
Proof.
  intros Hc.
  assert (E : existsb (fun c => negb (blank_rt c))
                (list_ascii_of_string (strip blank_rt (String c s))) = true).
  { rewrite strip_keeps. cbn [list_ascii_of_string existsb]. now rewrite Hc. }
  destruct (list_ascii_of_string (strip blank_rt (String c s))); [discriminate|].
  unfold len. cbn [List.length]. apply Z.eqb_neq. lia.
Qed.

Lemma blank_rt_isspace (c : ascii) : blank_rt c = true -> isspace c = true.
Proof.
  unfold blank_rt. intros H.
  apply orb_prop in H. destruct H as [H|H]; [apply orb_prop in H; destruct H as [H|H]|];
    apply Ascii.eqb_eq in H; subst; reflexivity.
Qed.

Lemma isspace_not_digit (c : ascii) : isspace c = true -> isdigit c = false.
Proof.
  unfold isspace, isdigit. intros Hc.
  destruct ((48 <=? ord c) && (ord c <=? 57)) eqn:E; [|reflexivity].
  apply andb_prop in E. destruct E as [E1 E2]. apply Z.leb_le in E1, E2.
  apply orb_prop in Hc. destruct Hc as [Hc|Hc]; apply andb_prop in Hc;
    destruct Hc as [H1 H2]; apply Z.leb_le in H1, H2; lia.
Qed.

Lemma digit_not_blank (c : ascii) :
  isdigit c = true -> blank_rt c = false /\ Ascii.eqb c "#" = false.
Proof.
  intros Hd. split.
  - destruct (blank_rt c) eqn:E; [|reflexivity].
    apply blank_rt_isspace, isspace_not_digit in E. congruence.
  - destruct (Ascii.eqb c "#") eqn:E; [|reflexivity].
    apply Ascii.eqb_eq in E. subst. discriminate.
Qed.

Lemma lstrip_no_digit (s : string) :
  forallb isspace (list_ascii_of_string s) = true -> lstrip isdigit s = s.
Proof.
  destruct s as [|c r]; [reflexivity|].
  cbn [list_ascii_of_string forallb lstrip]. intros H. apply andb_prop in H.
  destruct H as [Hc _]. now rewrite (@isspace_not_digit c Hc).
Qed.

Lemma forallb_blank_isspace (s : string) :
  forallb blank_rt (list_ascii_of_string s) = true ->
  forallb isspace (list_ascii_of_string s) = true.
Proof.
  induction s as [|c r IH]; [reflexivity|].
  cbn [list_ascii_of_string forallb]. intros H. apply andb_prop in H.
  destruct H as [Hc Hr]. now rewrite (@blank_rt_isspace c Hc), IH.
Qed.

Lemma tokens_numbered (d : ascii) (ds rest : string) :
  isdigit d = true ->
  forallb isdigit (list_ascii_of_string ds) = true ->
  (forall r, rest <> String "#" r) ->
  tokens (String d (ds ++ rest)) = tokens rest.
Proof.
  intros Hd Hds Hrest.
  destruct (@digit_not_blank d Hd) as [Hb Hh].
  assert (L : tokens (String d (ds ++ rest)) = split (lstrip isdigit rest)).
  { unfold tokens. rewrite (@blank_test_fails d (ds ++ rest) Hb), Hh, Hd.
    unfold strip_line_number, split. rewrite split_aux_lstrip.
    cbn [lstrip]. rewrite Hd. now rewrite lstrip_app. }
  rewrite L. unfold tokens.
  destruct (len (list_ascii_of_string (strip blank_rt rest)) =? 0) eqn:B.
  - apply blank_test, forallb_blank_isspace in B.
    rewrite (@lstrip_no_digit rest B). now apply split_aux_blank.
  - destruct rest as [|c0 r]; [reflexivity|].
    destruct (Ascii.eqb c0 "#") eqn:E.
    + apply Ascii.eqb_eq in E. subst. now elim (Hrest r).
    + destruct (isdigit c0) eqn:D.
      * unfold strip_line_number, split. now rewrite split_aux_lstrip.
      * cbn [lstrip]. now rewrite D.
Qed.

(** X12.  The line number of a regression test is dropped: a line that
    starts with one or more digits is handled exactly as the text behind
    the digits would be, unless that text starts with "#" (which is a
    comment only at the start of a line). *)
Theorem numbered_line (C : Collaborators) (d : ascii) (ds rest : string)
    (st : GtpConnection) :
  isdigit d = true ->
  forallb isdigit (list_ascii_of_string ds) = true ->
  (forall r, rest <> String "#" r) ->
  get_cmd C (String d (ds ++ rest)) st = get_cmd C rest st.
Proof.
  intros Hd Hds Hrest. unfold get_cmd. now rewrite tokens_numbered.
Qed.

Lemma numbered_line_witness :
  get_cmd spec_collaborators ("10 boardsize 5" ++ nl) fresh
  = get_cmd spec_collaborators (" boardsize 5" ++ nl) fresh.
Proof.
  apply (@numbered_line spec_collaborators "1" "0" (" boardsize 5" ++ nl) fresh).
  - reflexivity.
  - reflexivity.
  - intros r H. discriminate H.
Defined.

(** ** The command table *)

Lemma is_command_commands (C : Collaborators) (name : string) :
  is_command name = match commands C name with Some _ => true | None => false end.
Proof.
  unfold is_command, command_names, commands. cbn [existsb].
  repeat match goal with
         | |- context [String.eqb name ?s] =>
             destruct (String.eqb name s); [reflexivity|cbn [orb]]
         end.
  reflexivity.
Qed.

Lemma is_command_In (name : string) :
  is_command name = true <-> In name command_names.
Proof.
  unfold is_command. rewrite existsb_exists. split.
  - intros [x [Hin Hx]]. apply String.eqb_eq in Hx. now subst.
  - intros H. exists name. split; [assumption|apply String.eqb_refl].
Qed.

(** X13.  The three views of the command table agree: [known_command]
    answers "true" for exactly the names that have a handler in the table
    [get_cmd] dispatches on, and "false" for all others, and these are the
    names [list_commands] lists. *)
Theorem known_command_agrees (C : Collaborators) (name : string) (st : GtpConnection) :
  known_command_cmd [name] st
    = (st,
       [Stdout (respond_frame
                  match commands C name with Some _ => "true" | None => "false" end)],
       Ok tt) /\
  (In name command_names <-> exists handler, commands C name = Some handler) /\
  list_commands_cmd [] st = (st, [Stdout (respond_frame (join " " command_names))], Ok tt).
Proof.
  split; [|split].
  - unfold known_command_cmd.
    replace (getitem [name] 0) with (Ok name) by reflexivity. msimp.
    rewrite (is_command_commands C name).
    destruct (commands C name); reflexivity.
  - rewrite <- is_command_In, (is_command_commands C name).
    destruct (commands C name) as [h|]; split; intros H; eauto; try discriminate.
    destruct H as [h H]. discriminate.
  - reflexivity.
Qed.

(** ** The end of a session *)

(** X14.  [quit] is answered with the empty success response and ends the
    session: [exit()] raises [SystemExit], which is not an [Exception], so
    [get_cmd] neither logs nor catches it, the connection is unchanged and
    no further line is read. *)
Theorem quit_ends_session (C : Collaborators) (line : string) (args rest : list string)
    (st : GtpConnection) :
  tokens line = "quit" :: args ->
  get_cmd C line st = (st, [Stdout ("= " ++ nl ++ nl)], Raise SystemExit) /\
  start_connection C (line :: rest) st
    = (st, [Stdout ("= " ++ nl ++ nl)], Raise SystemExit).
Proof.
  intros Htok.
  assert (G : get_cmd C line st = (st, [Stdout ("= " ++ nl ++ nl)], Raise SystemExit)).
  { unfold get_cmd. rewrite Htok. reflexivity. }
  split; [exact G|].
  cbn [start_connection]. rewrite bind_run, G. reflexivity.
Qed.

Lemma quit_ends_session_witness :
  start_connection spec_collaborators ["quit" ++ nl; "name" ++ nl]
    (init (Board.mk 0 [] BLACK) true)
  = (init (Board.mk 0 [] BLACK) true, [Stdout ("= " ++ nl ++ nl)], Raise SystemExit).
Proof.
  apply (@quit_ends_session spec_collaborators ("quit" ++ nl) [] ["name" ++ nl]
           (init (Board.mk 0 [] BLACK) true)).
  reflexivity.
Defined.

(** * Further properties of the play command *)

Lemma getitem_Ok {A} (l : list A) (i : Z) (a d : A) :
  0 <= i -> getitem l i = Ok a ->
  (Z.to_nat i < List.length l)%nat /\ nth (Z.to_nat i) l d = a.
Proof.
  unfold getitem. intros Hi.
  replace (i <? 0) with false by (symmetry; apply Z.ltb_ge; lia).
  destruct ((0 <=? i) && (i <? Z.of_nat (List.length l))) eqn:E; [|discriminate].
  apply andb_prop in E. destruct E as [_ E]. apply Z.ltb_lt in E.
  destruct (nth_error l (Z.to_nat i)) eqn:N; [|discriminate].
  intros H. inversion H; subst. split; [lia|]. now apply nth_error_nth.
Qed.

Lemma setitem_Ok {A} (l cells : list A) (i : Z) (a : A) :
  0 <= i -> setitem l i a = Ok cells -> cells = set_nth (Z.to_nat i) a l.
Proof.
  unfold setitem. intros Hi.
  replace (i <? 0) with false by (symmetry; apply Z.ltb_ge; lia).
  destruct (_ && _); [|discriminate]. intros H. now inversion H.
Qed.

(** The only way the [try] block of [play_cmd] changes the connection:
    both arguments are there, the lowered colour token is "b" or "w", the
    point decodes to a pair, the cell of that pair holds EMPTY, and it is
    that cell which receives the colour. *)
Lemma play_body_places (args : list string) (st st' : GtpConnection)
    (w : list event) (r : result unit) :
  play_body args st = (st', w, r) ->
  st' = st \/
  exists tok mv color row col cells,
    getitem args 0 = Ok tok /\ getitem args 1 = Ok mv /\
    (lower tok = "b" \/ lower tok = "w") /\
    color_to_int (lower tok) = Ok color /\
    move_to_coord mv (Board.size (board st)) = Ok (Some (row, col)) /\
    getitem (Board.board (board st))
      (Board.coord_to_point row col (Board.size (board st))) = Ok EMPTY /\
    setitem (Board.board (board st))
      (Board.coord_to_point row col (Board.size (board st))) color = Ok cells /\
    st' = set_conn_board st
            (Board.set_current_player (Board.set_board (board st) cells)
               (Board.opponent color)) /\
    r = Ok tt.
Proof.
  unfold play_body. msimp.
  mcase (getitem args 0) E0; [|intros H; inversion H; now left].
  mcase (getitem args 1) E1; [|intros H; inversion H; now left].
  mcase (color_to_int (lower a)) E2; [|intros H; inversion H; now left].
  destruct (negb (String.eqb (lower a) "b") && negb (String.eqb (lower a) "w")) eqn:Ec;
    msimp; [intros H; inversion H; now left|].
  mcase (head (lower a0)) E3; [|intros H; inversion H; now left].
  match goal with |- context [lift ?r] => destruct r as [off|e] eqn:E4 end; msimp;
    [|intros H; inversion H; now left].
  destruct off; msimp; [intros H; inversion H; now left|].
  destruct (a1 =? 3); msimp; [intros H; inversion H; now left|].
  mcase (move_to_coord a0 (Board.size (board st))) E5; [|intros H; inversion H; now left].
  destruct a3 as [[row col]|]; msimp; [|intros H; inversion H; now left].
  match goal with |- context [lift ?r] => destruct r as [cell|e] eqn:E6 end; msimp;
    [|intros H; inversion H; now left].
  destruct (negb (cell =? EMPTY)) eqn:Ee; msimp; [intros H; inversion H; now left|].
  match goal with |- context [lift ?r] => destruct r as [cells|e] eqn:E7 end; msimp;
    [|intros H; inversion H; now left].
  intros H. inversion H; subst; clear H. right.
  exists a, a0, a1, row, col, cells.
  apply negb_false_iff, Z.eqb_eq in Ee. subst cell.
  repeat split; try assumption; try reflexivity.
  apply andb_false_iff in Ec.
  destruct Ec as [Ec|Ec]; apply negb_false_iff, String.eqb_eq in Ec; auto.
Qed.

Lemma play_cmd_places (args : list string) (st st' : GtpConnection)
    (w : list event) (r : result unit) :
  play_cmd args st = (st', w, r) ->
  st' = st \/
  exists tok mv color row col cells,
    getitem args 0 = Ok tok /\ getitem args 1 = Ok mv /\
    (lower tok = "b" \/ lower tok = "w") /\
    color_to_int (lower tok) = Ok color /\
    move_to_coord mv (Board.size (board st)) = Ok (Some (row, col)) /\
    getitem (Board.board (board st))
      (Board.coord_to_point row col (Board.size (board st))) = Ok EMPTY /\
    setitem (Board.board (board st))
      (Board.coord_to_point row col (Board.size (board st))) color = Ok cells /\
    st' = set_conn_board st
            (Board.set_current_player (Board.set_board (board st) cells)
               (Board.opponent color)) /\
    r = Ok tt.
Proof.
  unfold play_cmd, try_except.
  destruct (play_body args st) as [[st1 w1] [[]|e]] eqn:E.
  - intros H. inversion H; subst. exact (@play_body_places _ _ _ _ _ E).
  - assert (K : st1 = st).
    { destruct (@play_body_places _ _ _ _ _ E) as [K|K]; [exact K|].
      destruct K as [? [? [? [? [? [? [_ [_ [_ [_ [_ [_ [_ [_ K]]]]]]]]]]]]]]. discriminate. }
    destruct (is_Exception e); intros H; inversion H; subst; now left.
Qed.

Lemma color_of_token (tok : string) (color : Z) :
  lower tok = "b" \/ lower tok = "w" ->
  color_to_int (lower tok) = Ok color ->
  (lower tok = "b" /\ color = BLACK) \/ (lower tok = "w" /\ color = WHITE).
Proof.
  intros [H|H] Hc; rewrite H in Hc; inversion Hc; auto.
Qed.

(** Lowering a string changes nothing [int] looks at: blanks, signs,
    digits and underscores are not letters. *)
Lemma lower_char_class (c : ascii) :
  isspace (lower_char c) = isspace c /\
  isdigit (lower_char c) = isdigit c /\
  Ascii.eqb (lower_char c) "_" = Ascii.eqb c "_" /\
  (isdigit c = true -> lower_char c = c).
Proof.
  destruct c as [[] [] [] [] [] [] [] []]; vm_compute;
    repeat split; intros; try reflexivity; discriminate.
Qed.

Lemma lstrip_lower (s : string) : lstrip isspace (lower s) = lower (lstrip isspace s).
Proof.
  induction s as [|c r IH]; cbn [lower lstrip]; [reflexivity|].
  rewrite (proj1 (lower_char_class c)). destruct (isspace c); [exact IH|reflexivity].
Qed.

Lemma rev_string_lower (s acc : string) :
  rev_string (lower s) (lower acc) = lower (rev_string s acc).
Proof.
  revert acc. induction s as [|c r IH]; intros acc; cbn [lower rev_string]; [reflexivity|].
  exact (IH (String c acc)).
Qed.

Lemma strip_lower (s : string) : strip isspace (lower s) = lower (strip isspace s).
Proof.
  unfold strip, rstrip. rewrite lstrip_lower.
  rewrite (rev_string_lower (lstrip isspace s) EmptyString : rev_string _ EmptyString = _).
  rewrite lstrip_lower.
  exact (rev_string_lower _ EmptyString).
Qed.

Lemma int_digits_lower (s : string) (acc : Z) (b : bool) :
  int_digits (lower s) acc b = int_digits s acc b.
Proof.
  revert acc b. induction s as [|c r IH]; intros acc b; cbn [lower int_digits];
    [reflexivity|].
  destruct (lower_char_class c) as [_ [Hd [Hu Hl]]]. rewrite Hd, Hu.
  destruct (isdigit c) eqn:E.
  - rewrite (Hl eq_refl), IH. reflexivity.
  - destruct (_ && _); [apply IH|reflexivity].
Qed.

Lemma int_lower (s : string) (n : Z) : int (lower s) = Ok n -> int s = Ok n.
Proof.
  unfold int. cbv zeta. rewrite strip_lower.
  destruct (strip isspace s) as [|c r]; cbn [lower]; [discriminate|].
  pose proof (int_digits_lower r 0 false) as Hr.
  pose proof (int_digits_lower (String c r) 0 false) as Hcr. cbn [lower] in Hcr.
  destruct c as [[] [] [] [] [] [] [] []];
    match goal with
    | |- context [lower_char ?c] =>
        let x := eval vm_compute in (lower_char c) in
        change (lower_char c) with x in *
    end;
    cbv beta iota; rewrite ?Hr, ?Hcr;
    match goal with
    | |- match ?X with _ => _ end = _ -> _ => destruct X; [exact (fun H => H)|discriminate]
    end.
Qed.

Lemma tail_lower (s : string) : tail (lower s) = lower (tail s).
Proof. destruct s; reflexivity. Qed.

Lemma parse_point_parts (s : string) (row col : Z) :
  parse_point s = Ok (row, col) ->
  exists c, head s = Ok c /\ ord c - ord "a" <= col /\ int (tail s) = Ok row.
Proof.
  unfold parse_point. destruct (head s) as [c|e]; [|discriminate]. cbn [bind].
  destruct (negb _ || _); [discriminate|].
  destruct (int (tail s)) as [r|e]; [|discriminate]. cbn [bind].
  destruct (r <? 1); [discriminate|]. intros H. inversion H; subst.
  exists c. repeat split. destruct (ord c <? ord "i"); lia.
Qed.

Lemma setitem_in_range {A} (l : list A) (j : Z) (a : A) :
  0 <= j < len l -> setitem l j a = Ok (set_nth (Z.to_nat j) a l).
Proof.
  unfold setitem, len. intros H.
  replace (j <? 0) with false by (symmetry; apply Z.ltb_ge; lia).
  replace (0 <=? j) with true by (symmetry; apply Z.leb_le; lia).
  replace (j <? Z.of_nat (List.length l)) with true by (symmetry; apply Z.ltb_lt; lia).
  reflexivity.
Qed.

(** What is enough for [play] to place a stone: a colour token that
    lowers to b or w, a point that decodes to a pair, and EMPTY in the
    cell of that pair.  Neither the player to move nor the recorded result
    is looked at. *)
Lemma play_cmd_places_stone (tok mv : string) (more : list string) (color row col : Z)
    (st : GtpConnection) :
  (lower tok = "b" /\ color = BLACK) \/ (lower tok = "w" /\ color = WHITE) ->
  move_to_coord mv (Board.size (board st)) = Ok (Some (row, col)) ->
  (Z.to_nat (Board.coord_to_point row col (Board.size (board st)))
   < List.length (Board.board (board st)))%nat ->
  nth (Z.to_nat (Board.coord_to_point row col (Board.size (board st))))
      (Board.board (board st)) BORDER = EMPTY ->
  play_cmd (tok :: mv :: more) st
    = (set_conn_board st
         (Board.mk (Board.size (board st))
            (set_nth (Z.to_nat (Board.coord_to_point row col (Board.size (board st))))
               color (Board.board (board st)))
            (Board.opponent color)),
       [Stdout (respond_frame EmptyString)], Ok tt).
Proof.
  intros Htok Hmv Hlt Hnth.
  destruct (@move_to_coord_accepts _ _ _ _ Hmv) as [P [Hr [Hc Hn]]].
  destruct (@parse_point_bounds _ _ _ P) as [Hr1 Hc1].
  destruct (@parse_point_parts _ _ _ P) as [c [Hhead [Hcol Hint]]].
  rewrite tail_lower in Hint. apply int_lower in Hint.
  assert (Hp : 0 <= Board.coord_to_point row col (Board.size (board st))
               < len (Board.board (board st))).
  { unfold len. split; [unfold Board.coord_to_point; nia|lia]. }
  assert (Hcolor : color_to_int (lower tok) = Ok color /\
                   negb (String.eqb (lower tok) "b") && negb (String.eqb (lower tok) "w")
                     = false /\
                   (color =? 3) = false).
  { destruct Htok as [[H1 H2]|[H1 H2]]; rewrite H1, H2; repeat split. }
  destruct Hcolor as [Hcolor [Hwrong Hthree]].
  unfold play_cmd, try_except, play_body. msimp.
  rewrite (@getitem_in_range _ (tok :: mv :: more) 0 EmptyString)
    by (unfold len; cbn [List.length]; lia).
  change (nth (Z.to_nat 0) (tok :: mv :: more) EmptyString) with tok. msimp.
  rewrite (@getitem_in_range _ (tok :: mv :: more) 1 EmptyString)
    by (unfold len; cbn [List.length]; lia).
  change (nth (Z.to_nat 1) (tok :: mv :: more) EmptyString) with mv. msimp.
  rewrite Hcolor. msimp. rewrite Hwrong. rewrite Hhead. msimp.
  replace (Board.size (board st) <? ord c - ord "a") with false
    by (symmetry; apply Z.ltb_ge; lia).
  rewrite Hint. cbn [bind].
  replace (Board.size (board st) <? row) with false by (symmetry; apply Z.ltb_ge; lia).
  msimp. rewrite Hthree. rewrite Hmv. msimp.
  rewrite (@getitem_in_range _ _ _ BORDER Hp). rewrite Hnth. msimp.
  change (negb (EMPTY =? EMPTY)) with false. cbv iota.
  rewrite (@setitem_in_range _ _ _ color Hp). msimp.
  reflexivity.
Qed.

(** X16.  When [play] places a stone, and what it does then.  [play]
    never raises, and it changes the connection exactly when a stone is
    placed.  If the connection changed, then the colour token is b or w
    (in either case), the point decodes to a pair (row, col) with both
    coordinates between 1 and the board size, the cell of that point held
    EMPTY and now holds the colour of the token, every other cell is what
    it was, the player to move is the opponent of that colour, and size,
    recorded result, debug mode and komi are unchanged.  Conversely,
    whenever the token lowers to b or w, the point decodes to a pair and
    the cell of that pair holds EMPTY, that stone is placed and the empty
    success response is given: nothing else is looked at, neither the
    player to move nor whether the game is over. *)
Theorem play_places_one_stone (args : list string) (st : GtpConnection) :
  (forall st' w r,
     play_cmd args st = (st', w, r) ->
     r = Ok tt /\
     (st' = st \/
      exists tok mv color row col,
        args = tok :: mv :: skipn 2 args /\
        ((lower tok = "b" /\ color = BLACK) \/ (lower tok = "w" /\ color = WHITE)) /\
        move_to_coord mv (Board.size (board st)) = Ok (Some (row, col)) /\
        1 <= row <= Board.size (board st) /\ 1 <= col <= Board.size (board st) /\
        let p := Z.to_nat (Board.coord_to_point row col (Board.size (board st))) in
        (p < List.length (Board.board (board st)))%nat /\
        nth p (Board.board (board st)) BORDER = EMPTY /\
        st' = set_conn_board st
                (Board.mk (Board.size (board st))
                   (set_nth p color (Board.board (board st)))
                   (Board.opponent color)))) /\
  (forall tok mv color row col,
     args = tok :: mv :: skipn 2 args ->
     (lower tok = "b" /\ color = BLACK) \/ (lower tok = "w" /\ color = WHITE) ->
     move_to_coord mv (Board.size (board st)) = Ok (Some (row, col)) ->
     let p := Z.to_nat (Board.coord_to_point row col (Board.size (board st))) in
     (p < List.length (Board.board (board st)))%nat ->
     nth p (Board.board (board st)) BORDER = EMPTY ->
     play_cmd args st
       = (set_conn_board st
            (Board.mk (Board.size (board st))
               (set_nth p color (Board.board (board st)))
               (Board.opponent color)),
          [Stdout ("= " ++ nl ++ nl)], Ok tt)).
Proof.
  split.
  - intros st' w r H. split.
    + destruct (play_cmd_outcome args st) as [[msg K]|[b' K]]; rewrite K in H;
        now inversion H.
    + destruct (@play_cmd_places _ _ _ _ _ H) as [K|K]; [now left|right].
      destruct K as [tok [mv [color [row [col [cells
        [A0 [A1 [Htok [Hcol [Hmv [Hget [Hset [Hst _]]]]]]]]]]]]]].
      exists tok, mv, color, row, col.
      destruct (@move_to_coord_accepts _ _ _ _ Hmv) as [P [Hr [Hc Hn]]].
      apply parse_point_bounds in P.
      assert (Hp : 0 <= Board.coord_to_point row col (Board.size (board st))).
      { unfold Board.coord_to_point. nia. }
      destruct (@getitem_Ok _ _ _ _ BORDER Hp Hget) as [Hlt Hnth].
      apply (@setitem_Ok _ _ _ _ _ Hp) in Hset.
      repeat split; try assumption; try lia.
      * destruct (@getitem_Ok _ _ _ _ EmptyString (Z.le_refl 0) A0) as [_ N0].
        destruct (@getitem_Ok _ _ _ _ EmptyString Z.le_0_1 A1) as [L1 N1].
        destruct args as [|x [|y rest]]; cbn [List.length] in L1; try lia.
        change (x = tok) in N0. change (y = mv) in N1. subst. reflexivity.
      * now apply color_of_token.
      * subst st' cells. reflexivity.
  - intros tok mv color row col Hargs Htok Hmv p Hlt Hnth. rewrite Hargs.
    exact (@play_cmd_places_stone tok mv (skipn 2 args) color row col st Htok Hmv Hlt Hnth).
Qed.

(** On the 5 x 5 board with BLACK's win recorded and BLACK to move,
    [play w C3] places a WHITE stone. *)
Lemma play_places_one_stone_witness :
  let st := state_after script_black_recorded in
  gameOver st = true /\ win_color st = BLACK /\
  Board.current_player (board st) = BLACK /\
  exists cells,
    play_cmd ["w"; "C3"] st
      = (set_conn_board st (Board.mk 5 cells BLACK), [Stdout ("= " ++ nl ++ nl)], Ok tt) /\
    nth (Z.to_nat (Board.coord_to_point 3 3 5)) cells BORDER = WHITE.
Proof.
  cbv zeta. repeat apply conj; try (vm_compute; reflexivity).
  eexists. split.
  - apply (proj2 (@play_places_one_stone ["w"; "C3"] (state_after script_black_recorded))
             "w" "C3" WHITE 3 3).
    + reflexivity.
    + right. split; reflexivity.
    + vm_compute. reflexivity.
    + vm_compute. lia.
    + vm_compute. reflexivity.
  - vm_compute. reflexivity.
Defined.

(** X17.  [boardsize] takes any integer: the size is not checked against
    2..MAXSIZE.  On a board whose size is outside that range [play] never
    places a stone, whatever its arguments: the connection stays exactly
    as [boardsize] left it. *)
Theorem play_needs_standard_size (a : string) (n : Z) (st : GtpConnection) :
  int a = Ok n ->
  ~ (2 <= n <= MAXSIZE) ->
  exists st1,
    boardsize_cmd [a] st = (st1, [Stdout ("= " ++ nl ++ nl)], Ok tt) /\
    Board.size (board st1) = n /\
    forall args st2 w r, play_cmd args st1 = (st2, w, r) -> st2 = st1 /\ r = Ok tt.
Proof.
  intros Hint Hn.
  exists (set_result (set_conn_board st (Board.reset (board st) n)) false (-1)).
  split; [|split].
  - unfold boardsize_cmd.
    replace (getitem [a] 0) with (Ok a) by reflexivity. msimp.
    rewrite Hint. msimp. unfold reset. rewrite bind_run, bind_get, put_run.
    reflexivity.
  - reflexivity.
  - intros args st2 w r H. split.
    + destruct (@play_cmd_places _ _ _ _ _ H) as [K|K]; [exact K|].
      destruct K as [tok [mv [color [row [col [cells [_ [_ [_ [_ [Hmv _]]]]]]]]]]].
      apply move_to_coord_accepts in Hmv. cbn in Hmv. lia.
    + destruct (play_cmd_outcome args
                  (set_result (set_conn_board st (Board.reset (board st) n)) false (-1)))
        as [[msg K]|[b' K]]; rewrite K in H; now inversion H.
Qed.

Lemma play_needs_standard_size_witness :
  exists st1,
    boardsize_cmd ["26"] fresh = (st1, [Stdout ("= " ++ nl ++ nl)], Ok tt) /\
    Board.size (board st1) = 26 /\
    play_cmd ["b"; "a1"] st1
      = (st1, [Stdout (respond_frame "Error: board_size out of range")], Ok tt).
Proof.
  destruct (@play_needs_standard_size "26" 26 fresh) as [st1 [H1 [H2 H3]]].
  - reflexivity.
  - unfold MAXSIZE. lia.
  - exists st1. split; [exact H1|]. split; [exact H2|].
    vm_compute in H1. inversion H1; subst. vm_compute. reflexivity.
Defined.
